(** * HiFi-GAN data pipeline: mel-spectrogram dataset and corpus indexing

    A shallow embedding of [meldataset.py] and of the resampling step of
    [inference.py], with the properties of the natural-language
    specification stated and settled against it.

    Conventions.
    - Python exceptions are values of [py_error]; a computation that may
      raise has type [result A].
    - Integers are [Z]; list lengths are converted with [Z.of_nat].
    - Python's [random] module is modelled by a stream of raw draws
      ([rng]); every outcome the library can produce corresponds to some
      stream.
    - The file system is a record of the three predicates the code asks
      ([os.path.isdir], [os.listdir], [os.path.isfile]) plus the contents
      of the wav files. *)

From Stdlib Require Import ZArith QArith Qround Reals Lra Lia List String Ascii.
From Stdlib Require Import DecimalString Permutation SpecFloat.
From stdpp Require Import base gmap strings list.
Import ListNotations.

#[global] Set Warnings "-register-all".
Open Scope Z_scope.

(* ================================================================== *)
(** * Python base layer *)
(* ================================================================== *)

Module Py.

Inductive py_error : Type :=
| TypeError
| ValueError
| IndexError
| KeyError
| FileNotFoundError
| ZeroDivisionError
| OverflowError
| RuntimeError.

Inductive result (A : Type) : Type :=
| Ok (a : A)
| Raise (e : py_error).
Arguments Ok {A} a.
Arguments Raise {A} e.

Definition bind {A B} (r : result A) (k : A -> result B) : result B :=
  match r with
  | Ok a => k a
  | Raise e => Raise e
  end.

Definition is_ok {A} (r : result A) : bool :=
  match r with Ok _ => true | Raise _ => false end.

(** A dynamically typed value as far as the corpus walk needs it: what
    the right operand of [filename_list + _] can be. *)
Inductive pyobj : Type :=
| PyStr (s : string)
| PyList (l : list string).

(** [a, b = xs] for a list [xs] of strings: exactly two items are
    required, otherwise [ValueError] (too many / not enough values to
    unpack). *)
Definition unpack2 (xs : list string) : result (string * string) :=
  match xs with
  | [a; b] => Ok (a, b)
  | _ => Raise ValueError
  end.

(** [l + o] for a list [l]: concatenation when [o] is a list,
    [TypeError] (can only concatenate list to list) otherwise. *)
Definition list_add (l : list string) (o : pyobj) : result (list string) :=
  match o with
  | PyList l' => Ok (l ++ l')
  | PyStr _ => Raise TypeError
  end.

(** Index normalisation of a slice bound against a sequence of length
    [n]: negative bounds count from the end, and everything is clamped
    to [0..n]. *)
Definition clamp_index (n i : Z) : Z :=
  if i <? 0 then Z.max 0 (i + n) else Z.min i n.

Section Slicing.
Context {A : Type}.

(** [l[a:b]] *)
Definition slice (a b : Z) (l : list A) : list A :=
  let n := Z.of_nat (length l) in
  let a' := clamp_index n a in
  let b' := clamp_index n b in
  firstn (Z.to_nat (b' - a')) (skipn (Z.to_nat a') l).

(** [l[:b]] *)
Definition slice_to (b : Z) (l : list A) : list A :=
  firstn (Z.to_nat (clamp_index (Z.of_nat (length l)) b)) l.

(** [l[a:]] *)
Definition slice_from (a : Z) (l : list A) : list A :=
  skipn (Z.to_nat (clamp_index (Z.of_nat (length l)) a)) l.

(** [l[i]] with Python's negative indices. *)
Definition getitem (l : list A) (i : Z) : result A :=
  let n := Z.of_nat (length l) in
  let j := if i <? 0 then i + n else i in
  if (j <? 0) || (n <=? j) then Raise IndexError
  else match nth_error l (Z.to_nat j) with
       | Some x => Ok x
       | None => Raise IndexError
       end.

(** [torch.nn.functional.pad(t, (0, n), 'constant')] on the last
    dimension: [n] zeros are appended; a negative [n] crops. *)
Definition pad_right (zero : A) (n : Z) (l : list A) : list A :=
  if 0 <=? n then l ++ repeat zero (Z.to_nat n)
  else firstn (Z.to_nat (Z.of_nat (length l) + n)) l.
End Slicing.

End Py.

Import Py.

(** [result] is a monad; stdpp's [x ← e; k] notation sequences the
    statements of a Python body, an exception ending the sequence. *)
#[global] Instance result_ret : MRet result := fun _ a => Ok a.
#[global] Instance result_bind : MBind result := fun _ _ k r => Py.bind r k.

(* ================================================================== *)
(** * Python floats (binary64) *)
(* ================================================================== *)

(** Python's [float] is IEEE-754 binary64.  The arithmetic below is the
    Standard Library's executable specification of it ([SpecFloat], with
    53 bits of precision), so that [int(n * (1 - v))], [round(a * b / c)]
    and [math.ceil(a / b)] are computed with the roundings the
    interpreter performs. *)
Module PyFloat.

Definition prec : Z := 53.
Definition emax : Z := 1024.

Definition float : Type := spec_float.

(** [float(z)] *)
Definition of_int (z : Z) : float := binary_normalize prec emax z 0 false.

Definition mul (x y : float) : float := SFmul prec emax x y.
Definition sub (x y : float) : float := SFsub prec emax x y.

Definition is_zero (x : float) : bool :=
  match x with S754_zero _ => true | _ => false end.

(** [x / y]: Python raises on a zero divisor instead of producing an
    infinity. *)
Definition div (x y : float) : result float :=
  if is_zero y then Raise ZeroDivisionError else Ok (SFdiv prec emax x y).

(** The integer part and the remainder of a positive mantissa [m] at
    exponent [e]: [m * 2^e = q + r / 2^k] with [k = - e] when [e < 0]. *)
Definition int_part (m : positive) (e : Z) : Z :=
  if 0 <=? e then Z.shiftl (Zpos m) e else Z.shiftr (Zpos m) (- e).

Definition frac_part (m : positive) (e : Z) : Z :=
  if 0 <=? e then 0 else Zpos m mod 2 ^ (- e).

Definition signed (s : bool) (z : Z) : Z := if s then - z else z.

(** [int(x)]: truncation towards zero. *)
Definition to_int (x : float) : result Z :=
  match x with
  | S754_zero _ => Ok 0
  | S754_finite s m e => Ok (signed s (int_part m e))
  | S754_infinity _ => Raise OverflowError
  | S754_nan => Raise ValueError
  end.

(** [round(x)] with one argument: the nearest integer, ties to even. *)
Definition round (x : float) : result Z :=
  match x with
  | S754_zero _ => Ok 0
  | S754_finite s m e =>
      let q := int_part m e in
      let r := frac_part m e in
      let half := 2 ^ (- e - 1) in
      let up := if r <? half then false
                else if half <? r then true
                else negb (Z.even q) && negb (0 <=? e) in
      Ok (signed s (if up then q + 1 else q))
  | S754_infinity _ => Raise OverflowError
  | S754_nan => Raise ValueError
  end.

(** [math.ceil(x)] *)
Definition ceil (x : float) : result Z :=
  match x with
  | S754_zero _ => Ok 0
  | S754_finite s m e =>
      let q := int_part m e in
      let r := frac_part m e in
      Ok (if s then - q else if r =? 0 then q else q + 1)
  | S754_infinity _ => Raise OverflowError
  | S754_nan => Raise ValueError
  end.

(** The literals of the code and of the configuration. *)
Definition one : float := of_int 1.
(** [0.1], i.e. the double nearest to one tenth, 0x1.999999999999ap-4 *)
Definition one_tenth : float := S754_finite false 7205759403792794 (-56).

End PyFloat.

(* ================================================================== *)
(** * The [random] module *)
(* ================================================================== *)

Module Random.

(** The generator is a stream of raw non-negative draws.  A bounded
    draw reduces the next raw value into the requested range, so every
    value of the range is the outcome for some stream, and the same
    stream always gives the same outcomes. *)
Definition rng : Type := nat -> Z.

Definition rng_next (g : rng) : rng := fun n => g (S n).

(** [random.randint(a, b)]: an integer of [a..b], both ends included;
    [ValueError] (empty range) when [b < a]. *)
Definition randint (a b : Z) (g : rng) : result (Z * rng) :=
  if b <? a then Raise ValueError
  else Ok (a + g O mod (b - a + 1), rng_next g).

Section Shuffle.
Context {A : Type}.

(** [x[i], x[j] = x[j], x[i]] *)
Definition swap (x : list A) (i j : nat) : list A :=
  match x !! i, x !! j with
  | Some a, Some b => <[i := b]> (<[j := a]> x)
  | _, _ => x
  end.

(** The loop of [random.shuffle]:
    [for i in reversed(range(1, len(x))): j = randbelow(i + 1); swap].
    The argument counts [i] down to 1. *)
Fixpoint shuffle_from (i : nat) (x : list A) (g : rng) : list A * rng :=
  match i with
  | O => (x, g)
  | S i' =>
      let j := Z.to_nat (g O mod (Z.of_nat i + 1)) in
      shuffle_from i' (swap x i j) (rng_next g)
  end.

Definition shuffle (x : list A) (g : rng) : list A * rng :=
  shuffle_from (length x - 1) x g.
End Shuffle.

End Random.

(* ================================================================== *)
(** * Corpus indexing: [recursive_file_extract] *)
(* ================================================================== *)

Module Corpus.

(** The class-path configuration ([h.cls_pth]): a mapping whose values
    are either mappings again or lists of sub-directory names.  A JSON
    object keeps its keys in order, which is the order [for key in
    cls_pth] visits them. *)
Inductive cls_node : Type :=
| Mapping (kvs : list (string * cls_node))
| Children (names : list string).

Record filesystem : Type := {
  isdir : string -> bool;
  listdir : string -> list string;
  isfile : string -> bool
}.

Definition ends_with_slash (s : string) : bool :=
  match rev (list_ascii_of_string s) with
  | c :: _ => Ascii.eqb c "/"%char
  | [] => false
  end.

(** [os.path.join(a, b)] (posixpath). *)
Definition os_path_join (a b : string) : string :=
  match b with
  | String c _ =>
      if Ascii.eqb c "/"%char then b
      else if String.eqb a "" || ends_with_slash a then (a ++ b)%string
      else (a ++ "/" ++ b)%string
  | EmptyString =>
      if String.eqb a "" || ends_with_slash a then a else (a ++ "/")%string
  end.

Section Walk.
Variable fs : filesystem.

(** The list comprehension of line 90. *)
Definition files_of_dir (fd : string) : list string :=
  map (os_path_join fd)
      (List.filter (fun f => isfile fs (os_path_join fd f)) (listdir fs fd)).

(** The inner loop over the children of one leaf key (lines 86-92);
    [j] only counts and is dropped. *)
Fixpoint scan_children (prefix : string) (children : list string)
         (filename_list : list string) : list string :=
  match children with
  | [] => filename_list
  | child :: rest =>
      let fd := (prefix ++ child ++ "/")%string in
      let filename_list :=
        if isdir fs fd then filename_list ++ files_of_dir fd
        else filename_list in
      scan_children prefix rest filename_list
  end.

(** The loop [for key in cls_pth] (lines 79-93), with the function
    to call on a nested mapping as [self_call].  The callee returns
    the single list [filename_list] (line 94); the call site unpacks
    that value into the two names [flist, llist] (line 82) and adds
    [flist] to the list (line 83).  [cls_queue] and [i] are only
    written, never read, and take no part in the result. *)
Fixpoint walk_keys (self_call : string -> cls_node -> result (list string))
         (base_pth : string) (kvs : list (string * cls_node))
         (filename_list : list string) {struct kvs} : result (list string) :=
  match kvs with
  | [] => Ok filename_list
  | (key, v) :: rest =>
      match v with
      | Mapping _ =>
          ret ← self_call (base_pth ++ key ++ "/")%string v;
          '(flist, llist) ← unpack2 ret;
          filename_list ← list_add filename_list (PyStr flist);
          walk_keys self_call base_pth rest filename_list
      | Children names =>
          walk_keys self_call base_pth rest
                    (scan_children (base_pth ++ key ++ "/")%string names
                                   filename_list)
      end
  end.

(** [recursive_file_extract(base_pth, cls_pth)].  A [cls_pth] that
    is a list cannot be indexed by its own items ([TypeError] at the
    first of them; an empty list is walked without a step). *)
Fixpoint recursive_file_extract (base_pth : string) (cls_pth : cls_node)
  {struct cls_pth} : result (list string) :=
  match cls_pth with
  | Children [] => Ok []
  | Children (_ :: _) => Raise TypeError
  | Mapping kvs => walk_keys recursive_file_extract base_pth kvs []
  end.

(** The loop over the base paths in [get_dataset_filelist]
    (lines 107-113); [None] is the initial [filelist = None]. *)
Fixpoint extract_all (bases : list string) (cls_pth : cls_node)
         (filelist : option (list string)) : result (option (list string)) :=
  match bases with
  | [] => Ok filelist
  | base :: rest =>
      files ← recursive_file_extract base cls_pth;
      extract_all rest cls_pth
                  (match filelist with
                   | None => Some files
                   | Some fl => Some (fl ++ files)
                   end)
  end.
End Walk.

(** ** The specification's example disk and configuration *)

Definition example_fs : filesystem := {|
  isdir := fun p => String.eqb p "/data/a/b/x/";
  listdir := fun p => if String.eqb p "/data/a/b/x/" then ["f1"; "f2"]%string else [];
  isfile := fun p => String.eqb p "/data/a/b/x/f1" || String.eqb p "/data/a/b/x/f2"
|}.

(** [{"a": {"b": ["x", "y"]}}] *)
Definition example_cfg : cls_node :=
  Mapping [("a", Mapping [("b", Children ["x"; "y"])])]%string.

(** [{"b": ["x", "y"]}], the inner level on its own *)
Definition example_leaf_cfg : cls_node :=
  Mapping [("b", Children ["x"; "y"])]%string.

End Corpus.


(* ================================================================== *)
(** * Train / validation split: [get_dataset_filelist] *)
(* ================================================================== *)

Module Split.
Import Corpus Random.

(** The fields of the configuration [h] that the split reads. *)
Record hparams : Type := {
  base_pth : list string;
  cls_pth : cls_node;
  num_validation : PyFloat.float
}.

(** [int(len(filelist) * (1 - h.num_validation))] *)
Definition split_point (n : Z) (num_validation : PyFloat.float) : result Z :=
  PyFloat.to_int
    (PyFloat.mul (PyFloat.of_int n) (PyFloat.sub PyFloat.one num_validation)).

(** Lines 114-118, on the list the indexing produced. *)
Definition shuffle_and_split (filelist : list string) (num_validation : PyFloat.float)
           (g : rng) : result (list string * list string * list string * rng) :=
  let '(shuffled, g') := shuffle filelist g in
  k ← split_point (Z.of_nat (length shuffled)) num_validation;
  k' ← split_point (Z.of_nat (length shuffled)) num_validation;
  Ok (slice_to k shuffled, slice_from k' shuffled, shuffled, g').

(** [get_dataset_filelist(h)].  Besides the two lists of the source it
    returns the shuffled list they were cut from, which the source
    holds in [filelist] at that point.  With no base path [filelist]
    is still [None] and [random.shuffle(None)] raises [TypeError]. *)
Definition get_dataset_filelist (fs : filesystem) (h : hparams) (g : rng)
  : result (list string * list string * list string * rng) :=
  filelist ← extract_all fs (base_pth h) (cls_pth h) None;
  match filelist with
  | None => Raise TypeError
  | Some filelist => shuffle_and_split filelist (num_validation h) g
  end.

End Split.


(* ================================================================== *)
(** * The dataset: [MelDataset] *)
(* ================================================================== *)

Module Dataset.
Import Random.

Definition MAX_WAV_VALUE : Z := 32768.

(** ** Path helpers used for the precomputed mel file *)

(** [os.path.split(p)[-1]]: what follows the last slash. *)
Fixpoint basename_aux (cs acc : list ascii) : list ascii :=
  match cs with
  | [] => acc
  | c :: rest =>
      if Ascii.eqb c "/"%char then basename_aux rest []
      else basename_aux rest (acc ++ [c])
  end.

Definition basename (p : string) : string :=
  string_of_list_ascii (basename_aux (list_ascii_of_string p) []).

(** [os.path.splitext(name)[0]] for a name without a slash: the part
    before the last dot, unless only dots precede it. *)
Fixpoint split_at_dot (rev_cs : list ascii) : option (list ascii) :=
  match rev_cs with
  | [] => None
  | c :: rest =>
      if Ascii.eqb c "."%char then Some rest else split_at_dot rest
  end.

Definition splitext_root (name : string) : string :=
  match split_at_dot (rev (list_ascii_of_string name)) with
  | Some rev_root =>
      if existsb (fun c => negb (Ascii.eqb c "."%char)) rev_root
      then string_of_list_ascii (rev rev_root)
      else name
  | None => name
  end.

(** [round(len(audio) * float(target) / source)] (meldataset.py line
    169, inference.py line 73). *)
Definition number_of_samples (len target source : Z) : result Z :=
  x ← PyFloat.div (PyFloat.mul (PyFloat.of_int len) (PyFloat.of_int target))
                  (PyFloat.of_int source);
  PyFloat.round x.

(** The count as the specification words it,
    [round(len * target_rate / source_rate)]: the exact quotient
    [a / b] rounded to the nearest integer, a tie going to the even
    neighbour as Python's [round] has it. *)
Definition round_half_even (a b : Z) : Z :=
  let q := a / b in
  let r := a mod b in
  if 2 * r <? b then q
  else if b <? 2 * r then q + 1
  else if Z.even q then q else q + 1.

(** [math.ceil(segment_size / hop_size)] (line 203).  The quotient of
    two integers is the double nearest to the exact quotient, which is
    what dividing their conversions gives while both are below 2^53. *)
Definition frames_per_seg_of (segment_size hop_size : Z) : result Z :=
  x ← PyFloat.div (PyFloat.of_int segment_size) (PyFloat.of_int hop_size);
  PyFloat.ceil x.

(** The list objects of the interpreter, by address: a list passed to
    the constructor is shared with the caller, not copied. *)
Abbreviation heap := (gmap nat (list string)).

Section WithSignal.
(** A sample of a waveform or a cell of a mel-spectrogram. *)
Variable sample : Type.
Variable zero : sample.
(** [x / MAX_WAV_VALUE] for a PCM integer [x]. *)
Variable of_pcm : Z -> sample.
(** [scipy.signal.resample(x, num)], for a positive [num]: what is
    stated of its result assumes the count is positive. *)
Variable resample : list sample -> Z -> list sample.

(** A mel tensor of shape [1 x bins x T], stored frame by frame:
    [frames] has one entry per index of the last dimension, so
    [size(2)] is its length and slicing or padding the last
    dimension slices or pads this list. *)
Record mel_tensor : Type := {
  bins : nat;
  frames : list (list sample)
}.

Definition size2 (m : mel_tensor) : Z := Z.of_nat (length (frames m)).

Definition mel_slice (a b : Z) (m : mel_tensor) : mel_tensor :=
  {| bins := bins m; frames := slice a b (frames m) |}.

Definition mel_pad_right (n : Z) (m : mel_tensor) : mel_tensor :=
  {| bins := bins m;
     frames := pad_right (repeat zero (bins m)) n (frames m) |}.

(** The parameters handed to [transforms.MelSpectrogram] in
    [__init__] (lines 145-158). *)
Record mel_params : Type := {
  mp_sample_rate : Z;
  mp_n_fft : Z;
  mp_pad : Z;
  mp_win_length : Z;
  mp_hop_length : Z;
  mp_f_min : Z;
  mp_f_max : option Z;
  mp_n_mels : Z;
  mp_power : Z
}.

(** The transform object called as [self.mel_spec(audio)]. *)
Variable MelSpectrogram : mel_params -> list sample -> mel_tensor.

(** What is on disk: [scipy.io.wavfile.read] gives the rate and the
    PCM data, [np.load] a stored mel. *)
Record disk : Type := {
  read_wav : string -> result (Z * list Z);
  np_load : string -> result mel_tensor
}.

(** [load_wav(full_path)]: the pair of [read] swapped. *)
Definition load_wav (d : disk) (full_path : string) : result (list Z * Z) :=
  '(sampling_rate, data) ← read_wav d full_path;
  Ok (data, sampling_rate).

(** The attributes [__init__] sets and [__getitem__] only reads.
    [mel_spec] is the transform as a function of the waveform; the
    waveforms torch refuses (too short for the [n_fft] of its STFT) are
    not told apart at this level, so what is stated of an item of
    [__getitem__] is stated of the calls that return. *)
Record MelDataset : Type := {
  audio_files : nat;
  segment_size : Z;
  sampling_rate : Z;
  split : bool;
  n_fft : Z;
  num_mels : Z;
  hop_size : Z;
  win_size : Z;
  fmin : Z;
  fmax : option Z;
  fmax_loss : option Z;
  n_cache_reuse : Z;
  fine_tuning : bool;
  base_mels_path : string;
  mel_spec : list sample -> mel_tensor
}.

(** The attributes [__getitem__] writes. *)
Record cache : Type := {
  cached_wav : option (list sample);
  cache_ref_count : Z
}.

(** The constructor's arguments. *)
Record init_args : Type := {
  a_training_files : nat;
  a_segment_size : Z;
  a_n_fft : Z;
  a_num_mels : Z;
  a_hop_size : Z;
  a_win_size : Z;
  a_sampling_rate : Z;
  a_fmin : Z;
  a_fmax : option Z;
  a_split : bool;
  a_shuffle : bool;
  a_n_cache_reuse : Z;
  a_fmax_loss : option Z;
  a_fine_tuning : bool;
  a_base_mels_path : string
}.

(** [int((n_fft - hop_size) / 2)] *)
Definition half_overlap (n_fft hop_size : Z) : result Z :=
  x ← PyFloat.div (PyFloat.of_int (n_fft - hop_size)) (PyFloat.of_int 2);
  PyFloat.to_int x.

(** The keyword arguments of lines 145-158; [pad] is the value of
    [int((n_fft - hop_size) / 2)]. *)
Definition transform_params (a : init_args) (pad : Z) : mel_params :=
  {| mp_sample_rate := a_sampling_rate a;
     mp_n_fft := a_n_fft a;
     mp_pad := pad;
     mp_win_length := a_win_size a;
     mp_hop_length := a_hop_size a;
     mp_f_min := a_fmin a;
     mp_f_max := a_fmax a;
     mp_n_mels := a_num_mels a;
     mp_power := 2 |}.

(** [random.seed(a)] puts the generator in a state that depends on
    [a] alone. *)
Variable seed : Z -> rng.

(** [MelDataset.__init__] (lines 125-158).  The incoming generator
    state [g] is whatever the process had before the call. *)
Definition init (a : init_args) (h : heap) (g : rng)
  : result (MelDataset * cache * heap * rng) :=
  let g := seed 1234 in
  '(h, g) ← (if a_shuffle a then
               match h !! a_training_files a with
               | Some files =>
                   let '(files', g') := shuffle files g in
                   Ok (<[a_training_files a := files']> h, g')
               | None => Raise TypeError
               end
             else Ok (h, g));
  pad ← half_overlap (a_n_fft a) (a_hop_size a);
  let params := transform_params a pad in
  Ok ({| audio_files := a_training_files a;
         segment_size := a_segment_size a;
         sampling_rate := a_sampling_rate a;
         split := a_split a;
         n_fft := a_n_fft a;
         num_mels := a_num_mels a;
         hop_size := a_hop_size a;
         win_size := a_win_size a;
         fmin := a_fmin a;
         fmax := a_fmax a;
         fmax_loss := a_fmax_loss a;
         n_cache_reuse := a_n_cache_reuse a;
         fine_tuning := a_fine_tuning a;
         base_mels_path := a_base_mels_path a;
         mel_spec := MelSpectrogram params |},
      {| cached_wav := None; cache_ref_count := 0 |},
      h, g).

Definition len (audio : list sample) : Z := Z.of_nat (length audio).

(** Lines 162-176: the waveform for this call and the new cache. *)
Definition fetch_audio (self : MelDataset) (d : disk) (c : cache)
           (filename : string) : result (list sample * cache) :=
  if cache_ref_count c =? 0 then
    '(data, file_rate) ← load_wav d filename;
    let audio := map of_pcm data in
    let cached := audio in
    audio ← (if negb (file_rate =? sampling_rate self) then
               n ← number_of_samples (len audio) (sampling_rate self) file_rate;
               Ok (resample audio n)
             else Ok audio);
    Ok (audio, {| cached_wav := Some cached;
                  cache_ref_count := n_cache_reuse self |})
  else
    match cached_wav c with
    | Some audio =>
        Ok (audio, {| cached_wav := cached_wav c;
                      cache_ref_count := cache_ref_count c - 1 |})
    | None => Raise TypeError
    end.

(** Lines 182-188: the segment of the plain (not fine-tuning) mode. *)
Definition segment_audio (self : MelDataset) (audio : list sample) (g : rng)
  : result (list sample * rng) :=
  if split self then
    if segment_size self <=? len audio then
      let max_audio_start := len audio - segment_size self in
      '(audio_start, g) ← randint 0 max_audio_start g;
      Ok (slice audio_start (audio_start + segment_size self) audio, g)
    else
      Ok (pad_right zero (segment_size self - len audio) audio, g)
  else Ok (audio, g).

(** Lines 202-211: the aligned pair of the fine-tuning mode. *)
Definition segment_pair (self : MelDataset) (mel : mel_tensor)
           (audio : list sample) (g : rng)
  : result (mel_tensor * list sample * rng) :=
  if split self then
    frames_per_seg ← frames_per_seg_of (segment_size self) (hop_size self);
    if segment_size self <=? len audio then
      '(mel_start, g) ← randint 0 (size2 mel - frames_per_seg - 1) g;
      let mel := mel_slice mel_start (mel_start + frames_per_seg) mel in
      let audio := slice (mel_start * hop_size self)
                         ((mel_start + frames_per_seg) * hop_size self) audio in
      Ok (mel, audio, g)
    else
      let mel := mel_pad_right (frames_per_seg - size2 mel) mel in
      let audio := pad_right zero (segment_size self - len audio) audio in
      Ok (mel, audio, g)
  else Ok (mel, audio, g).

(** The tuple [__getitem__] returns, before the final [squeeze]
    calls, which only drop dimensions of size one. *)
Record item : Type := {
  it_mel : mel_tensor;
  it_audio : list sample;
  it_filename : string;
  it_mel_loss : mel_tensor
}.

(** [self.audio_files], read through the heap. *)
Definition files_of (self : MelDataset) (h : heap) : result (list string) :=
  match h !! audio_files self with
  | Some files => Ok files
  | None => Raise TypeError
  end.

(** The path of the stored mel (lines 195-196). *)
Definition mel_path (self : MelDataset) (filename : string) : string :=
  Corpus.os_path_join (base_mels_path self)
                      (splitext_root (basename filename) ++ ".npy")%string.

(** Lines 181-211: the conditioning mel and the audio segment.  A
    stored mel of two dimensions is given its leading one (lines
    199-200), which [mel_tensor] always has. *)
Definition features (self : MelDataset) (d : disk) (filename : string)
           (audio : list sample) (g : rng)
  : result (mel_tensor * list sample * rng) :=
  if negb (fine_tuning self) then
    '(audio, g) ← segment_audio self audio g;
    Ok (mel_spec self audio, audio, g)
  else
    mel ← np_load d (mel_path self filename);
    segment_pair self mel audio g.

(** [MelDataset.__getitem__] (lines 160-219). *)
Definition getitem (self : MelDataset) (d : disk) (h : heap) (c : cache)
           (index : Z) (g : rng) : result (item * cache * rng) :=
  files ← files_of self h;
  filename ← Py.getitem files index;
  '(audio, c) ← fetch_audio self d c filename;
  '(mel, audio, g) ← features self d filename audio g;
  let mel_loss := mel_spec self audio in
  Ok ({| it_mel := mel; it_audio := audio; it_filename := filename;
         it_mel_loss := mel_loss |}, c, g).

(** ** Inference: the waveform handed to the generator *)

(** inference.py lines 69-74: load, scale, resample on a rate
    mismatch. *)
Definition inference_load (d : disk) (target_rate : Z) (path : string)
  : result (list sample) :=
  '(wav, sr) ← load_wav d path;
  let wav := map of_pcm wav in
  if negb (sr =? target_rate) then
    n ← number_of_samples (len wav) target_rate sr;
    Ok (resample wav n)
  else Ok wav.

End WithSignal.

Arguments bins {sample} _.
Arguments frames {sample} _.
Arguments size2 {sample} _.
Arguments mel_slice {sample} _ _ _.
Arguments mel_pad_right {sample} _ _ _.
Arguments read_wav {sample} _ _.
Arguments np_load {sample} _ _.
Arguments load_wav {sample} _ _.
Arguments audio_files {sample} _.
Arguments segment_size {sample} _.
Arguments sampling_rate {sample} _.
Arguments split {sample} _.
Arguments n_fft {sample} _.
Arguments num_mels {sample} _.
Arguments hop_size {sample} _.
Arguments win_size {sample} _.
Arguments fmin {sample} _.
Arguments fmax {sample} _.
Arguments fmax_loss {sample} _.
Arguments n_cache_reuse {sample} _.
Arguments fine_tuning {sample} _.
Arguments base_mels_path {sample} _.
Arguments mel_spec {sample} _ _.
Arguments cached_wav {sample} _.
Arguments cache_ref_count {sample} _.
Arguments init {sample} _ _ _ _ _.
Arguments len {sample} _.
Arguments fetch_audio {sample} _ _ _ _ _ _.
Arguments segment_audio {sample} _ _ _ _.
Arguments segment_pair {sample} _ _ _ _ _.
Arguments it_mel {sample} _.
Arguments it_audio {sample} _.
Arguments it_filename {sample} _.
Arguments it_mel_loss {sample} _.
Arguments files_of {sample} _ _.
Arguments mel_path {sample} _ _.
Arguments features {sample} _ _ _ _ _ _.
Arguments getitem {sample} _ _ _ _ _ _ _ _ _.
Arguments inference_load {sample} _ _ _ _ _.

End Dataset.

(* ================================================================== *)
(** * Spectral features *)
(* ================================================================== *)

(** Tensors hold real numbers here: the properties below are about which
    function of the spectrum is computed, not about rounding. *)
Module Spectral.
Import Dataset.

Local Open Scope R_scope.

Definition complex : Type := (R * R)%type.

(** [torch.view_as_real(spec).pow(2).sum(-1)] *)
Definition norm2 (c : complex) : R := fst c * fst c + snd c * snd c.

(** [spec.abs()] *)
Definition cabs (c : complex) : R := sqrt (norm2 c).

Fixpoint dot (a b : list R) : R :=
  match a, b with
  | x :: a', y :: b' => x * y + dot a' b'
  | _, _ => 0
  end.

(** A filterbank is stored filter by filter, a spectrogram frame by
    frame; projecting a spectrogram takes, per frame, the dot product
    with every filter. *)
Definition project (filters : list (list R)) (spec : list (list R))
  : list (list R) :=
  map (fun frame => map (fun filter => dot filter frame) filters) spec.

(** [dynamic_range_compression_torch(x, C=1, clip_val=1e-5)] on one
    cell: [log(clamp(x, min=clip_val) * C)]. *)
Definition clip_val : R := 1 / 100000.
Definition dynamic_range_compression_torch (x : R) : R :=
  ln (Rmax x clip_val * 1).
Definition spectral_normalize_torch (spec : list (list R)) : list (list R) :=
  map (map dynamic_range_compression_torch) spec.

(** [F.pad(y, (p, p), mode='reflect')]; the pad must be shorter than
    the signal.  A negative pad crops that many samples at each end,
    and at least one sample must be left. *)
Definition reflect_pad (p : Z) (y : list R) : result (list R) :=
  if (p <? 0)%Z then
    if (Z.of_nat (length y) + 2 * p <? 1)%Z then Raise RuntimeError
    else Ok (firstn (Z.to_nat (Z.of_nat (length y) + 2 * p))
                    (skipn (Z.to_nat (- p)) y))
  else if (Z.of_nat (length y) <=? p)%Z then Raise RuntimeError
  else Ok (rev (firstn (Z.to_nat p) (skipn 1 y)) ++ y
           ++ firstn (Z.to_nat p) (skipn 1 (rev y))).

(** [F.pad(y, (p, p), 'constant')] *)
Definition constant_pad (p : Z) (y : list R) : list R :=
  repeat 0 (Z.to_nat p) ++ y ++ repeat 0 (Z.to_nat p).

(** A key of a Python dict lookup.  The two caches only ever receive
    string keys; a membership test may be asked with any value, and a
    number or [None] is never equal to a string. *)
Inductive pykey : Type :=
| KInt (z : Z)
| KNone
| KStr (s : string).

Definition dict_contains {V} (d : gmap string V) (k : pykey) : bool :=
  match k with
  | KStr s => bool_decide (is_Some (d !! s))
  | KInt _ | KNone => false
  end.

(** [fmax] as the configuration gives it: an integer or [null]. *)
Definition key_of_fmax (fmax : option Z) : pykey :=
  match fmax with
  | Some z => KInt z
  | None => KNone
  end.

(** [str(fmax)] *)
Definition str_of_fmax (fmax : option Z) : string :=
  match fmax with
  | Some z => NilZero.string_of_int (Z.to_int z)
  | None => "None"
  end.

(** The module-level dictionaries [mel_basis] and [hann_window], and a
    record of every evaluation of [librosa_mel_fn], by the key it was
    stored under (the record is not program state; it is what a
    recomputation leaves behind). *)
Record caches : Type := {
  mel_basis : gmap string (list (list R));
  hann_window : gmap string (list R);
  computed : list string
}.

Definition no_caches : caches :=
  {| mel_basis := ∅; hann_window := ∅; computed := [] |}.

Section Extractors.
(** [torch.stft(y, n_fft, hop_length, win_length, window, center,
    onesided=True, return_complex=True)]: the frames of the
    one-sided spectrum. *)
Variable stft : Z -> Z -> Z -> list R -> bool -> list R -> list (list complex).
(** [torch.hann_window(win_size)] *)
Variable torch_hann_window : Z -> list R.
(** [librosa_mel_fn(sr, n_fft, n_mels, fmin, fmax)] *)
Variable librosa_mel_fn : Z -> Z -> Z -> Z -> option Z -> list (list R).
(** The filterbank of torchaudio's [MelScale] for the parameters. *)
Variable melscale_fbanks : mel_params -> list (list R).

Definition lookup_key {V} (d : gmap string V) (k : string) : result V :=
  match d !! k with
  | Some v => Ok v
  | None => Raise KeyError
  end.

(** Lines 59-62: the test [fmax not in mel_basis] and, when it
    holds, the evaluation of the basis and the window and their
    storage under the string keys. *)
Definition refresh_caches (st : caches) (device : string)
           (n_fft num_mels sampling_rate win_size fmin : Z) (fmax : option Z)
  : caches :=
  let key := (str_of_fmax fmax ++ "_" ++ device)%string in
  if negb (dict_contains (mel_basis st) (key_of_fmax fmax)) then
    let mel := librosa_mel_fn sampling_rate n_fft num_mels fmin fmax in
    {| mel_basis := <[key := mel]> (mel_basis st);
       hann_window := <[device := torch_hann_window win_size]> (hann_window st);
       computed := computed st ++ [key] |}
  else st.

(** [mel_spectrogram] (lines 52-73), for a waveform [y] on the
    device named [device]. *)
Definition mel_spectrogram (st : caches) (y : list R) (device : string)
           (n_fft num_mels sampling_rate hop_size win_size fmin : Z)
           (fmax : option Z) (center : bool)
  : result (list (list R) * caches) :=
  let key := (str_of_fmax fmax ++ "_" ++ device)%string in
  let st := refresh_caches st device n_fft num_mels sampling_rate win_size
                           fmin fmax in
  p ← half_overlap n_fft hop_size;
  y ← reflect_pad p y;
  window ← lookup_key (hann_window st) device;
  let spec := stft n_fft hop_size win_size window center y in
  let spec := map (map (fun c => sqrt (norm2 c + 1 / 1000000000))) spec in
  basis ← lookup_key (mel_basis st) key;
  let spec := project basis spec in
  let spec := spectral_normalize_torch spec in
  Ok (spec, st).

(** torchaudio's [Spectrogram]: constant padding by [pad],
    [torch.stft] without centring, then [abs()] when [power] is 1
    and [abs().pow(power)] otherwise. *)
Definition spectrogram (mp : mel_params) (waveform : list R) : list (list R) :=
  let waveform :=
    if (0 <? mp_pad mp)%Z then constant_pad (mp_pad mp) waveform
    else waveform in
  let spec_f := stft (mp_n_fft mp) (mp_hop_length mp) (mp_win_length mp)
                     (torch_hann_window (mp_win_length mp)) false waveform in
  if (mp_power mp =? 1)%Z then map (map cabs) spec_f
  else map (map (fun c => cabs c ^ Z.to_nat (mp_power mp))) spec_f.

(** [transforms.MelSpectrogram(...)(waveform)]: the spectrogram
    projected through the mel filterbank. *)
Definition MelSpectrogram (mp : mel_params) (waveform : list R)
  : mel_tensor R :=
  {| Dataset.bins := Z.to_nat (mp_n_mels mp);
     Dataset.frames := project (melscale_fbanks mp) (spectrogram mp waveform) |}.

(** ** The extraction as the specification words it

    One-sided STFT, magnitude of each bin, projection through the
    mel basis, then [log(clamp(mel, min=1e-5))]. *)
Definition log_magnitude_mel (mp : mel_params) (waveform : list R)
  : mel_tensor R :=
  let waveform :=
    if (0 <? mp_pad mp)%Z then constant_pad (mp_pad mp) waveform
    else waveform in
  let spec_f := stft (mp_n_fft mp) (mp_hop_length mp) (mp_win_length mp)
                     (torch_hann_window (mp_win_length mp)) false waveform in
  {| Dataset.bins := Z.to_nat (mp_n_mels mp);
     Dataset.frames := map (map (fun x => ln (Rmax x clip_val)))
                   (project (melscale_fbanks mp) (map (map cabs) spec_f)) |}.


(** The extraction the code performs: squared magnitude, projection,
    no logarithm. *)
Definition power_mel (mp : mel_params) (waveform : list R) : mel_tensor R :=
  let waveform :=
    if (0 <? mp_pad mp)%Z then constant_pad (mp_pad mp) waveform
    else waveform in
  let spec_f := stft (mp_n_fft mp) (mp_hop_length mp) (mp_win_length mp)
                     (torch_hann_window (mp_win_length mp)) false waveform in
  {| Dataset.bins := Z.to_nat (mp_n_mels mp);
     Dataset.frames := project (melscale_fbanks mp) (map (map norm2) spec_f) |}.

End Extractors.

(** ** A one-point transform

    With [n_fft = hop = win = 1] the discrete Fourier transform of a
    frame is the windowed sample itself, with no imaginary part. *)
Definition stft_1 (n_fft hop win : Z) (window : list R) (center : bool)
           (y : list R) : list (list complex) :=
  map (fun x => [(x * hd 1 window, 0)]) y.

(** [x / 32768.0] *)
Definition of_pcm (x : Z) : R := IZR x / IZR MAX_WAV_VALUE.

End Spectral.

(* ================================================================== *)
(** * Concrete instances used to run the model *)
(* ================================================================== *)

Module Concrete.
Import Random Dataset.

(** Samples as exact fractions: a PCM value over full scale. *)
Definition q_of_pcm (x : Z) : Q := Qmake x 32768.

(** A resampler that only gets the length right: it truncates or
    repeats the last sample.  It stands for [scipy.signal.resample]
    wherever nothing but the number of samples matters. *)
Definition resample_hold (x : list Q) (n : Z) : list Q :=
  firstn (Z.to_nat n) (x ++ repeat (List.last x 0%Q) (Z.to_nat n)).

(** A transform that yields one empty frame per [hop_length] samples. *)
Definition mel_blank (mp : mel_params) (audio : list Q) : mel_tensor Q :=
  {| bins := Z.to_nat (mp_n_mels mp);
     frames := repeat (repeat 0%Q (Z.to_nat (mp_n_mels mp)))
                      (Z.to_nat (Z.of_nat (length audio) / Z.max 1 (mp_hop_length mp))) |}.

(** A generator whose raw draws count up from the seed. *)
Definition seed_count (a : Z) : rng := fun n => a + Z.of_nat n.

(** A generator that always draws [k]. *)
Definition rng_const (k : Z) : rng := fun _ => k.

(** A small fine-tuning dataset: segments of 4 samples, hops of 2. *)
Definition small_ft (sample : Type) (spec : list sample -> mel_tensor sample)
  : MelDataset sample :=
  {| audio_files := 0%nat; segment_size := 4; sampling_rate := 22050;
     split := true; n_fft := 4; num_mels := 1; hop_size := 2; win_size := 4;
     fmin := 0; fmax := Some 8000; fmax_loss := None; n_cache_reuse := 1;
     fine_tuning := true; base_mels_path := "mels";
     mel_spec := spec |}.

Definition blank_spec : list Q -> mel_tensor Q :=
  mel_blank {| mp_sample_rate := 22050; mp_n_fft := 4; mp_pad := 1;
               mp_win_length := 4; mp_hop_length := 2; mp_f_min := 0;
               mp_f_max := Some 8000; mp_n_mels := 1; mp_power := 2 |}.

(** A stored mel of [t] frames with one bin each. *)
Definition mel_of_frames (t : nat) : mel_tensor Q :=
  {| bins := 1; frames := repeat [1%Q] t |}.

Definition four_samples : list Q := [1%Q; 2%Q; 3%Q; 4%Q].

(** A disk with one file, [a.wav], of four samples recorded at
    44100 Hz. *)
Definition disk_44k : disk Q :=
  {| read_wav := fun p => if String.eqb p "a.wav"
                          then Ok (44100, [8192; 16384; -8192; 0])
                          else Raise FileNotFoundError;
     np_load := fun _ => Raise FileNotFoundError |}.

(** The plain (not fine-tuning) dataset over that disk, at 22050 Hz,
    handing out whole files. *)
Definition plain_22k : MelDataset Q :=
  {| audio_files := 0%nat; segment_size := 4; sampling_rate := 22050;
     split := false; n_fft := 4; num_mels := 1; hop_size := 2; win_size := 4;
     fmin := 0; fmax := Some 8000; fmax_loss := None; n_cache_reuse := 1;
     fine_tuning := false; base_mels_path := "";
     mel_spec := blank_spec |}.

Definition empty_cache : cache Q :=
  {| cached_wav := None; cache_ref_count := 0 |}.


(** A disk with one file, [b.wav], of six samples at 22050 Hz. *)
Definition disk_22k : disk Q :=
  {| read_wav := fun p => if String.eqb p "b.wav"
                          then Ok (22050, [1; 2; 3; 4; 5; 6])
                          else Raise FileNotFoundError;
     np_load := fun _ => Raise FileNotFoundError |}.

(** Heaps with the one list the dataset was given, at address 0. *)
Definition heap_a : heap := {[ 0%nat := ["a.wav"%string] ]}.
Definition heap_abc : heap :=
  {[ 0%nat := ["a.wav"; "b.wav"; "c.wav"]%string ]}.

(** Constructor arguments of a shuffling dataset. *)
Definition args_shuffle : init_args :=
  {| a_training_files := 0%nat; a_segment_size := 8192; a_n_fft := 1024;
     a_num_mels := 80; a_hop_size := 256; a_win_size := 1024;
     a_sampling_rate := 22050; a_fmin := 0; a_fmax := Some 8000;
     a_split := true; a_shuffle := true; a_n_cache_reuse := 1;
     a_fmax_loss := None; a_fine_tuning := false; a_base_mels_path := "" |}.


(** The configuration of the flat example: one base path, the leaf
    level of the specification's tree, a tenth held out. *)
Definition h_flat : Split.hparams :=
  {| Split.base_pth := ["/data/a/"%string];
     Split.cls_pth := Corpus.example_leaf_cfg;
     Split.num_validation := PyFloat.one_tenth |}.

(** *** A one-point spectral front end over the reals

    [n_fft = hop_size = win_size = 1] and one mel filter of weight 1:
    every sample is a frame of one bin. *)
Definition hann_1 (win : Z) : list R := [1%R].
Definition fbank_1 (mp : mel_params) : list (list R) := [[1%R]].

Definition args_1 : init_args :=
  {| a_training_files := 0%nat; a_segment_size := 1; a_n_fft := 1;
     a_num_mels := 1; a_hop_size := 1; a_win_size := 1;
     a_sampling_rate := 22050; a_fmin := 0; a_fmax := Some 8000;
     a_split := false; a_shuffle := false; a_n_cache_reuse := 1;
     a_fmax_loss := None; a_fine_tuning := false; a_base_mels_path := "" |}.

(** [a.wav] at 22050 Hz: one sample of silence. *)
Definition disk_silence : disk R :=
  {| read_wav := fun p => if String.eqb p "a.wav"
                          then Ok (22050, [0])
                          else Raise FileNotFoundError;
     np_load := fun _ => Raise FileNotFoundError |}.

(** [a.wav] at 48000 Hz: one thousand samples. *)
Definition disk_48k : disk Q :=
  {| read_wav := fun p => if String.eqb p "a.wav"
                          then Ok (48000, repeat 1 1000%nat)
                          else Raise FileNotFoundError;
     np_load := fun _ => Raise FileNotFoundError |}.


End Concrete.

From Stdlib Require Import Sorted DecimalPos DecimalZ.

(* ================================================================== *)
(** * The dataset seen by its user *)
(* ================================================================== *)

Module Loader.
Import Random Dataset.

Section WithSignal.
Variable sample : Type.
Variable zero : sample.
Variable of_pcm : Z -> sample.
Variable resample : list sample -> Z -> list sample.

(** [MelDataset.__len__] (lines 221-222). *)
Definition dataset_len (self : MelDataset sample) (h : heap) : result Z :=
  files ← files_of self h;
  Ok (Z.of_nat (length files)).

(** Successive calls of [__getitem__], one per index, each starting
    from the cache and the generator the previous one left: what a
    loader that asks for the items in turn observes. *)
Fixpoint getitem_each (self : MelDataset sample) (d : disk sample) (h : heap)
         (c : cache sample) (indices : list Z) (g : rng)
  : result (list (item sample) * cache sample * rng) :=
  match indices with
  | [] => Ok ([], c, g)
  | index :: rest =>
      '(it, c, g) ← getitem zero of_pcm resample self d h c index g;
      '(its, c, g) ← getitem_each self d h c rest g;
      Ok (it :: its, c, g)
  end.

End WithSignal.

Arguments dataset_len {sample} _ _.
Arguments getitem_each {sample} _ _ _ _ _ _ _ _ _.

End Loader.

(* ================================================================== *)
(** * The inference driver *)
(* ================================================================== *)

Module Inference.
Import Random Dataset.

(** [sorted(cp_list)]: strings in ascending order of their characters,
    as an insertion sort. *)
Fixpoint insert_sorted (x : string) (l : list string) : list string :=
  match l with
  | [] => [x]
  | y :: rest =>
      if String.leb x y then x :: y :: rest else y :: insert_sorted x rest
  end.

Definition sorted (l : list string) : list string :=
  fold_right insert_sorted [] l.

(** [scan_checkpoint(cp_dir, prefix)] (lines 33-38); [glob] is
    [glob.glob], the paths that match a pattern. *)
Definition scan_checkpoint (glob : string -> list string)
           (cp_dir prefix : string) : string :=
  let pattern := Corpus.os_path_join cp_dir (prefix ++ "*")%string in
  let cp_list := glob pattern in
  if (Z.of_nat (length cp_list) =? 0) then ""%string
  else List.last (sorted cp_list) ""%string.

(** The name of the output file (line 93). *)
Definition output_file (output_dir filname : string) : string :=
  Corpus.os_path_join output_dir
                      (splitext_root filname ++ "_generated.wav")%string.

Section WithSignal.
Variable sample : Type.
Variable of_pcm : Z -> sample.
Variable resample : list sample -> Z -> list sample.

(** Lines 79-82: a waveform of at least [segment_size] samples is cut
    to a random segment; a shorter one is left as it is. *)
Definition inference_segment (segment_size : Z) (wav : list sample) (g : rng)
  : result (list sample * rng) :=
  if segment_size <=? len wav then
    let max_audio_start := len wav - segment_size in
    '(audio_start, g) ← randint 0 max_audio_start g;
    Ok (slice audio_start (audio_start + segment_size) wav, g)
  else Ok (wav, g).

(** Lines 69-82: the waveform handed to the transform. *)
Definition inference_input (d : disk sample) (target_rate segment_size : Z)
           (path : string) (g : rng) : result (list sample * rng) :=
  wav ← inference_load of_pcm resample d target_rate path;
  inference_segment segment_size wav g.

End WithSignal.

Arguments inference_segment {sample} _ _ _.
Arguments inference_input {sample} _ _ _ _ _ _ _.

End Inference.

(* ================================================================== *)
(** * More concrete inputs *)
(* ================================================================== *)

Module Inputs.
Import Random Dataset Concrete.

(** A mel basis of one filter of weight 1, whatever the parameters. *)
Definition mel_fn_1 (sr n_fft n_mels fmin : Z) (fmax : option Z)
  : list (list R) := [[1%R]].

(** A configuration with no base path. *)
Definition h_no_base : Split.hparams :=
  {| Split.base_pth := [];
     Split.cls_pth := Corpus.example_leaf_cfg;
     Split.num_validation := PyFloat.one_tenth |}.

(** The flat example with nothing, and with everything, held out. *)
Definition h_all_training : Split.hparams :=
  {| Split.base_pth := ["/data/a/"%string];
     Split.cls_pth := Corpus.example_leaf_cfg;
     Split.num_validation := S754_zero false |}.

Definition h_all_validation : Split.hparams :=
  {| Split.base_pth := ["/data/a/"%string];
     Split.cls_pth := Corpus.example_leaf_cfg;
     Split.num_validation := PyFloat.one |}.

(** The keys of the two example configurations. *)
Definition leaf_keys : list (string * Corpus.cls_node) :=
  [("b", Corpus.Children ["x"; "y"])]%string.

Definition nested_keys : list (string * Corpus.cls_node) :=
  [("a", Corpus.Mapping leaf_keys)]%string.

(** Two checkpoints in a directory, listed newest first. *)
Definition glob_two (pattern : string) : list string :=
  ["cp/g_00000010"; "cp/g_00000009"]%string.


End Inputs.

(* ================================================================== *)
(** * Properties *)
(* ================================================================== *)

(** ** Lists, slices and padding *)

Module SliceFacts.

Section Facts.
Context {A : Type}.
Implicit Types l : list A.

Lemma clamp_index_inside n i : 0 <= i <= n -> clamp_index n i = i.
Proof.
  intros H. unfold clamp_index.
  destruct (Z.ltb_spec i 0); lia.
Qed.


(** A slice that starts beyond the end is empty. *)
Lemma slice_beyond l a b :
  Z.of_nat (length l) <= a -> 0 <= a -> slice a b l = [].
Proof.
  intros Ha H0. unfold slice, clamp_index.
  destruct (Z.ltb_spec a 0); [lia |].
  replace (Z.min a (Z.of_nat (length l))) with (Z.of_nat (length l)) by lia.
  rewrite Nat2Z.id, drop_all. now rewrite take_nil.
Qed.

(** [l[:k] + l[k:]] is [l], for every integer [k]. *)
Lemma slice_to_from l k : slice_to k l ++ slice_from k l = l.
Proof. unfold slice_to, slice_from. apply take_drop. Qed.

Lemma length_slice_to l k :
  0 <= k <= Z.of_nat (length l) -> Z.of_nat (length (slice_to k l)) = k.
Proof.
  intros H. unfold slice_to. rewrite clamp_index_inside by lia.
  rewrite length_take. lia.
Qed.

Lemma length_slice_from l k :
  0 <= k <= Z.of_nat (length l) ->
  Z.of_nat (length (slice_from k l)) = Z.of_nat (length l) - k.
Proof.
  intros H. unfold slice_from. rewrite clamp_index_inside by lia.
  rewrite length_drop. lia.
Qed.

Lemma length_pad_right (z : A) n l :
  0 <= n -> Z.of_nat (length (pad_right z n l)) = Z.of_nat (length l) + n.
Proof.
  intros H. unfold pad_right.
  destruct (Z.leb_spec 0 n); [| lia].
  rewrite length_app, repeat_length. lia.
Qed.

Lemma pad_right_app (z : A) n l :
  0 <= n -> pad_right z n l = l ++ repeat z (Z.to_nat n).
Proof.
  intros H. unfold pad_right. destruct (Z.leb_spec 0 n); [easy | lia].
Qed.
End Facts.

End SliceFacts.

(** ** The random module *)

Module RandomFacts.
Import Random.


(** Every value of the range is drawn by some generator. *)
Lemma randint_reaches a b r :
  a <= r <= b -> exists g, randint a b g = Ok (r, rng_next g).
Proof.
  intros H. exists (fun _ => r - a). unfold randint.
  destruct (Z.ltb_spec b a); [lia |].
  rewrite Z.mod_small by lia. do 2 f_equal. lia.
Qed.

(** An empty range is an error. *)
Lemma randint_empty a b g : b < a -> randint a b g = Raise ValueError.
Proof.
  intros H. unfold randint. destruct (Z.ltb_spec b a); [easy | lia].
Qed.

Section ShuffleFacts.
Context {A : Type}.

Lemma swap_perm (x : list A) i j : Permutation x (swap x i j).
Proof.
  unfold swap.
  destruct (x !! i) as [a|] eqn:Hi; [| reflexivity].
  destruct (x !! j) as [b|] eqn:Hj; [| reflexivity].
  symmetry. now apply Permutation_insert_swap.
Qed.

Lemma shuffle_from_perm i (x : list A) g :
  Permutation x (fst (shuffle_from i x g)).
Proof.
  revert x g. induction i as [| i IH]; intros x g; simpl.
  - reflexivity.
  - etransitivity; [apply swap_perm | apply IH].
Qed.

(** [random.shuffle] reorders; it neither drops nor repeats. *)
Lemma shuffle_perm (x : list A) g : Permutation x (fst (shuffle x g)).
Proof. apply shuffle_from_perm. Qed.

Lemma shuffle_length (x : list A) g : length (fst (shuffle x g)) = length x.
Proof. symmetry. apply Permutation_length, shuffle_perm. Qed.
End ShuffleFacts.

End RandomFacts.

(** ** Corpus indexing *)

Module CorpusFacts.
Import Corpus.

(** The leaf level on its own works as described: the existing
    directory contributes its two files, the absent one nothing. *)
Lemma leaf_level_example :
  recursive_file_extract example_fs "/data/a/" example_leaf_cfg
  = Ok ["/data/a/b/x/f1"; "/data/a/b/x/f2"]%string.
Proof. reflexivity. Qed.

(** Whatever the recursive call returns, the two statements after it
    cannot both succeed: unpacking wants exactly two items, and two
    items of a list of paths are strings, which cannot be added to a
    list. *)
Lemma unpack_then_add_raises (ret acc : list string) :
  is_ok ('(flist, llist) ← unpack2 ret;
         list_add acc (PyStr flist)) = false.
Proof.
  destruct ret as [| a [| b [| c r]]]; reflexivity.
Qed.

(** A mapping that has another mapping among its values is never
    indexed: the walk raises for every disk and base path. *)
Lemma nested_mapping_never_indexed fs base kvs key inner :
  In (key, Mapping inner) kvs ->
  is_ok (recursive_file_extract fs base (Mapping kvs)) = false.
Proof.
  intros Hin. simpl.
  generalize (@nil string) as acc.
  induction kvs as [| [k v] rest IH]; intros acc; [destruct Hin |].
  destruct v as [m | names].
  - cbn [walk_keys].
    destruct (recursive_file_extract fs (base ++ k ++ "/") (Mapping m))
      as [ret | e]; [| reflexivity].
    cbn [mbind result_bind Py.bind].
    destruct ret as [| a [| b [| c r]]]; reflexivity.
  - cbn [walk_keys]. apply IH.
    destruct Hin as [Heq | Hin]; [discriminate | exact Hin].
Qed.

(** C1 (the code departs from the claim).  On the specification's own
    example, the configuration [{"a": {"b": ["x","y"]}}] under
    [/data/] with only [/data/a/b/x/] on disk holding [f1] and [f2],
    the walk does not return the two paths: the recursive call yields
    them, the call site unpacks the two-item list into two strings,
    and adding a string to the file list raises [TypeError]; the
    loop over the base paths raises with it. *)
Theorem nested_example_raises :
  recursive_file_extract example_fs "/data/" example_cfg = Raise TypeError
  /\ extract_all example_fs ["/data/"%string] example_cfg None = Raise TypeError
  /\ recursive_file_extract example_fs "/data/a/" example_leaf_cfg
     = Ok ["/data/a/b/x/f1"; "/data/a/b/x/f2"]%string.
Proof. repeat split; reflexivity. Qed.

End CorpusFacts.

(** ** The basis cache of [mel_spectrogram] *)

Module CacheFacts.
Import Spectral.

Section WithLibraries.
Variable stft : Z -> Z -> Z -> list R -> bool -> list R -> list (list complex).
Variable torch_hann_window : Z -> list R.
Variable librosa_mel_fn : Z -> Z -> Z -> Z -> option Z -> list (list R).

(** The membership test of line 59 fails for every [fmax] of the
    configuration, whatever the cache holds. *)
Lemma fmax_never_found {V} (d : gmap string V) fmax :
  dict_contains d (key_of_fmax fmax) = false.
Proof. destruct fmax; reflexivity. Qed.

(** So every pass through lines 59-62 evaluates and stores. *)
Lemma refresh_caches_always st device n_fft num_mels sr win fmin fmax :
  refresh_caches torch_hann_window librosa_mel_fn st device
                 n_fft num_mels sr win fmin fmax
  = {| mel_basis := <[(str_of_fmax fmax ++ "_" ++ device)%string
                      := librosa_mel_fn sr n_fft num_mels fmin fmax]> (mel_basis st);
       hann_window := <[device := torch_hann_window win]> (hann_window st);
       computed := computed st ++ [(str_of_fmax fmax ++ "_" ++ device)%string] |}.
Proof. unfold refresh_caches. now rewrite fmax_never_found. Qed.

(** A call of [mel_spectrogram] that returns leaves exactly that
    state behind. *)
Lemma mel_spectrogram_state st y device n_fft num_mels sr hop win
      fmin fmax center spec st' :
  mel_spectrogram stft torch_hann_window librosa_mel_fn st y device
                  n_fft num_mels sr hop win fmin fmax center = Ok (spec, st') ->
  st' = refresh_caches torch_hann_window librosa_mel_fn st device
                       n_fft num_mels sr win fmin fmax.
Proof.
  unfold mel_spectrogram. intros H.
  destruct (Dataset.half_overlap n_fft hop) as [p |]; [| discriminate].
  cbn [mbind result_bind Py.bind] in H.
  destruct (reflect_pad p y) as [y' |]; [| discriminate].
  cbn [mbind result_bind Py.bind] in H.
  destruct (lookup_key _ device) as [w |]; [| discriminate].
  cbn [mbind result_bind Py.bind] in H.
  destruct (lookup_key _ _) as [b |]; [| discriminate].
  cbn [mbind result_bind Py.bind] in H.
  now inversion H.
Qed.

(** C3 (the code departs from the claim).  The cache test asks for
    [fmax] itself while the entries are stored under the string
    [str(fmax) + '_' + device], so the test never finds an entry:
    after a first call has stored the basis for a key, a second call
    with the same [fmax] on the same device evaluates
    [librosa_mel_fn] again and overwrites the entry.  [computed]
    lists the evaluations. *)
Theorem basis_recomputed_on_second_call
        st device n_fft num_mels sr win fmin fmax :
  let key := (str_of_fmax fmax ++ "_" ++ device)%string in
  let call st := refresh_caches torch_hann_window librosa_mel_fn st device
                                n_fft num_mels sr win fmin fmax in
  is_Some (mel_basis (call st) !! key)
  /\ is_Some (hann_window (call st) !! device)
  /\ computed (call (call st)) = computed st ++ [key; key].
Proof.
  intros key call. unfold call. rewrite !refresh_caches_always.
  cbn [mel_basis hann_window computed]. fold key.
  rewrite !lookup_insert_eq. rewrite <- app_assoc.
  repeat split; eauto.
Qed.
End WithLibraries.

(** With [fmax = 8000] on the CPU, from empty caches: two calls, two
    evaluations for the one key. *)
Lemma two_calls_two_evaluations hann mel_fn :
  computed (refresh_caches hann mel_fn
              (refresh_caches hann mel_fn no_caches "cpu" 1024 80 22050 1024 0 (Some 8000))
              "cpu" 1024 80 22050 1024 0 (Some 8000))
  = ["8000_cpu"; "8000_cpu"]%string.
Proof. reflexivity. Qed.

End CacheFacts.

(** ** The dataset *)

Module DatasetFacts.
Import Random Dataset SliceFacts RandomFacts.

Ltac step_bind := cbn [mbind result_bind Py.bind].
Tactic Notation "step_bind" "in" hyp(H) :=
  cbn [mbind result_bind Py.bind] in H.

Section WithSignal.
Variable sample : Type.
Variable zero : sample.
Variable of_pcm : Z -> sample.
Variable resample : list sample -> Z -> list sample.

Abbreviation MelDataset := (MelDataset sample).
Abbreviation fetch_audio := (fetch_audio of_pcm resample).
Abbreviation segment_audio := (segment_audio zero).
Abbreviation segment_pair := (segment_pair zero).
Abbreviation getitem := (getitem zero of_pcm resample).

Implicit Types (self : MelDataset) (audio : list sample).

(** *** Plain mode *)



(** *** Fine-tuning mode *)

(** C6 (the code departs from the claim).  The draw of the
    fine-tuning path is guarded by the audio length, not by the mel
    length: with an audio of at least [segment_size] samples and a
    mel of at most [frames_per_seg] frames its upper bound
    [mel.size(2) - frames_per_seg - 1] is negative, and
    [random.randint] raises [ValueError]. *)
Theorem fine_tuning_draw_raises self mel audio g fps :
  split self = true ->
  frames_per_seg_of (segment_size self) (hop_size self) = Ok fps ->
  segment_size self <= len audio ->
  size2 mel < fps + 1 ->
  segment_pair self mel audio g = Raise ValueError.
Proof.
  intros Hsplit Hfps Hlen Hmel. unfold Dataset.segment_pair.
  rewrite Hsplit, Hfps. step_bind.
  destruct (Z.leb_spec (segment_size self) (len audio)); [| lia].
  rewrite randint_empty by lia. reflexivity.
Qed.


(** *** The waveform cache *)

(** A miss on a file at another rate: the local waveform is
    resampled, the cached one is not. *)
Lemma fetch_audio_miss self d c filename data rate n :
  cache_ref_count c = 0 ->
  load_wav d filename = Ok (data, rate) ->
  rate <> sampling_rate self ->
  number_of_samples (Z.of_nat (length data)) (sampling_rate self) rate = Ok n ->
  fetch_audio self d c filename
  = Ok (resample (map of_pcm data) n,
        {| cached_wav := Some (map of_pcm data);
           cache_ref_count := n_cache_reuse self |}).
Proof.
  intros Hc Hload Hrate Hn.
  unfold Dataset.fetch_audio. rewrite Hc. cbn [Z.eqb].
  rewrite Hload. step_bind.
  destruct (Z.eqb_spec rate (sampling_rate self)) as [| _]; [contradiction |].
  cbn [negb]. unfold len. rewrite length_map, Hn. reflexivity.
Qed.

(** A hit hands out the cached waveform as it is. *)
Lemma fetch_audio_hit self d c filename audio :
  cache_ref_count c <> 0 ->
  cached_wav c = Some audio ->
  fetch_audio self d c filename
  = Ok (audio, {| cached_wav := Some audio;
                  cache_ref_count := cache_ref_count c - 1 |}).
Proof.
  intros Hc Hw. unfold Dataset.fetch_audio.
  destruct (Z.eqb_spec (cache_ref_count c) 0) as [| _]; [contradiction |].
  now rewrite Hw.
Qed.

(** Plain mode without splitting returns the fetched waveform. *)
Lemma getitem_whole_file self d h c index g files filename audio c1 :
  files_of self h = Ok files ->
  Py.getitem files index = Ok filename ->
  fetch_audio self d c filename = Ok (audio, c1) ->
  fine_tuning self = false ->
  split self = false ->
  getitem self d h c index g
  = Ok ({| it_mel := mel_spec self audio; it_audio := audio;
           it_filename := filename; it_mel_loss := mel_spec self audio |},
        c1, g).
Proof.
  intros Hfiles Hname Hfetch Hft Hsplit.
  unfold Dataset.getitem. rewrite Hfiles. step_bind.
  rewrite Hname. step_bind. rewrite Hfetch. step_bind.
  unfold features, Dataset.segment_audio. rewrite Hft, Hsplit. reflexivity.
Qed.

(** C4 (the code departs from the claim).  On a miss the waveform is
    stored in the cache before it is resampled, and only the local
    copy is resampled.  So for a file whose rate differs from the
    target, the call that misses returns the resampled waveform and
    the next call, a hit, returns the waveform at the file's own
    rate. *)
Theorem cache_hit_not_resampled self d h c index g files filename data rate n :
  files_of self h = Ok files ->
  Py.getitem files index = Ok filename ->
  cache_ref_count c = 0 ->
  load_wav d filename = Ok (data, rate) ->
  rate <> sampling_rate self ->
  number_of_samples (Z.of_nat (length data)) (sampling_rate self) rate = Ok n ->
  n_cache_reuse self <> 0 ->
  fine_tuning self = false ->
  split self = false ->
  exists it1 c1 it2 c2,
    getitem self d h c index g = Ok (it1, c1, g)
    /\ it_audio it1 = resample (map of_pcm data) n
    /\ getitem self d h c1 index g = Ok (it2, c2, g)
    /\ it_audio it2 = map of_pcm data.
Proof.
  intros Hfiles Hname Hc Hload Hrate Hn Hreuse Hft Hsplit.
  pose proof (fetch_audio_miss self d c filename data rate n Hc Hload Hrate Hn)
    as Hmiss.
  eexists _, _, _, _. split; [| split; [| split]].
  - eapply getitem_whole_file; eassumption.
  - reflexivity.
  - eapply getitem_whole_file; try eassumption.
    apply fetch_audio_hit; [exact Hreuse | reflexivity].
  - reflexivity.
Qed.

(** *** The constructor *)

Variable MelSpectrogram : mel_params -> list sample -> mel_tensor sample.
Variable seed : Z -> rng.

Abbreviation init := (init MelSpectrogram seed).

(** C10.  With [shuffle=True] the constructor reseeds the shared
    generator with 1234 and shuffles the caller's list where it
    lies.  Whatever state the generator was in before the call (so,
    whatever seed the configuration asked for), the outcome is the
    same: the list at the caller's address holds the files in the
    order [random.shuffle] gives from seed 1234, a reordering of
    what was there, and the dataset reads its files from that same
    address. *)
Theorem init_order_ignores_seed a h g1 g2 files pad :
  a_shuffle a = true ->
  h !! a_training_files a = Some files ->
  half_overlap (a_n_fft a) (a_hop_size a) = Ok pad ->
  let shuffled := fst (shuffle files (seed 1234)) in
  exists self c g',
    init a h g1 = Ok (self, c, <[a_training_files a := shuffled]> h, g')
    /\ init a h g2 = Ok (self, c, <[a_training_files a := shuffled]> h, g')
    /\ audio_files self = a_training_files a
    /\ Permutation files shuffled.
Proof.
  intros Hsh Hfiles Hpad shuffled.
  pose proof (shuffle_perm files (seed 1234)) as Hperm.
  unfold Dataset.init. rewrite Hsh, Hfiles. subst shuffled.
  destruct (shuffle files (seed 1234)) as [files' gs].
  step_bind. rewrite Hpad. step_bind.
  eexists _, _, _. repeat split; assumption.
Qed.

End WithSignal.

End DatasetFacts.

(** ** The dataset on concrete inputs *)

Module DatasetRuns.
Import Random Dataset Concrete DatasetFacts.


(** An audio of exactly [segment_size = 4] samples with its mel of
    [4 / 2 = 2] frames: the draw is over [0 .. -1]. *)
Lemma fine_tuning_draw_raises_run :
  segment_pair 0%Q (small_ft Q blank_spec) (mel_of_frames 2) four_samples
               (rng_const 0)
  = Raise ValueError.
Proof.
  apply (fine_tuning_draw_raises Q 0%Q (small_ft Q blank_spec)
           (mel_of_frames 2) four_samples (rng_const 0) 2);
    [reflexivity | reflexivity | vm_compute; discriminate | reflexivity].
Defined.



(** A file at 44100 Hz in a dataset at 22050 Hz: the miss returns two
    samples, the hit that follows returns the four of the file. *)
Lemma cache_hit_not_resampled_run :
  exists it1 c1 it2 c2,
    getitem 0%Q q_of_pcm resample_hold plain_22k disk_44k heap_a empty_cache
            0 (rng_const 0) = Ok (it1, c1, rng_const 0)
    /\ it_audio it1
       = resample_hold (map q_of_pcm [8192; 16384; -8192; 0]) 2
    /\ getitem 0%Q q_of_pcm resample_hold plain_22k disk_44k heap_a c1
               0 (rng_const 0) = Ok (it2, c2, rng_const 0)
    /\ it_audio it2 = map q_of_pcm [8192; 16384; -8192; 0].
Proof.
  apply (cache_hit_not_resampled Q 0%Q q_of_pcm resample_hold plain_22k
           disk_44k heap_a empty_cache 0 (rng_const 0)
           ["a.wav"%string] "a.wav" [8192; 16384; -8192; 0] 44100 2);
    try reflexivity; vm_compute; discriminate.
Defined.

Lemma resample_hold_length x num :
  0 <= num -> len (resample_hold x num) = num.
Proof.
  intros H. unfold len, resample_hold.
  rewrite length_take, length_app, repeat_length. lia.
Qed.

(** The sample count on a few inputs: halving the rate, a ratio that
    is not a whole number (1000 * 22050 / 48000 = 459.375), and two
    ties, 2.5 and 3.5, which go to the even neighbour. *)
Lemma number_of_samples_examples :
  map (fun '(l, target, source) => number_of_samples l target source)
      [(4, 22050, 44100); (1000, 22050, 48000); (5, 22050, 44100);
       (7, 22050, 44100); (3, 22050, 0)]
  = [Ok 2; Ok 459; Ok 2; Ok 4; Raise ZeroDivisionError].
Proof. reflexivity. Qed.

(** Three files, shuffled by the constructor from two different
    generator states. *)
Lemma init_order_ignores_seed_run :
  exists self c g',
    init mel_blank seed_count args_shuffle heap_abc (seed_count 1)
    = Ok (self, c, <[0%nat := ["a.wav"; "c.wav"; "b.wav"]%string]> heap_abc, g')
    /\ init mel_blank seed_count args_shuffle heap_abc (seed_count 2)
       = Ok (self, c, <[0%nat := ["a.wav"; "c.wav"; "b.wav"]%string]> heap_abc, g')
    /\ audio_files self = 0%nat
    /\ Permutation ["a.wav"; "b.wav"; "c.wav"]%string
                   ["a.wav"; "c.wav"; "b.wav"]%string.
Proof.
  apply (init_order_ignores_seed Q mel_blank seed_count args_shuffle heap_abc
           (seed_count 1) (seed_count 2) ["a.wav"; "b.wav"; "c.wav"]%string 384);
    reflexivity.
Defined.

End DatasetRuns.

(** ** What the dataset's transform computes *)

Module SpectralFacts.
Import Random Dataset Spectral Concrete DatasetFacts.

Local Open Scope R_scope.

Lemma norm2_nonneg c : 0 <= norm2 c.
Proof. unfold norm2. nra. Qed.

(** [abs().pow(2)] is the squared magnitude. *)
Lemma cabs_pow2 c : cabs c ^ 2 = norm2 c.
Proof.
  unfold cabs. cbn [pow]. rewrite Rmult_1_r.
  apply sqrt_sqrt, norm2_nonneg.
Qed.

Section WithLibraries.
Variable stft : Z -> Z -> Z -> list R -> bool -> list R -> list (list complex).
Variable torch_hann_window : Z -> list R.
Variable melscale_fbanks : mel_params -> list (list R).

Abbreviation MelSpectrogram :=
  (MelSpectrogram stft torch_hann_window melscale_fbanks).
Abbreviation power_mel := (power_mel stft torch_hann_window melscale_fbanks).

(** With [power=2] the transform is the power mel-spectrogram. *)
Lemma MelSpectrogram_power2 mp waveform :
  mp_power mp = 2%Z -> MelSpectrogram mp waveform = power_mel mp waveform.
Proof.
  intros Hp. unfold Spectral.MelSpectrogram, Spectral.power_mel, spectrogram.
  rewrite Hp. cbn [Z.eqb Pos.eqb]. do 2 f_equal.
  apply map_ext; intros frame. apply map_ext; intros c.
  change (Z.to_nat 2) with 2%nat. apply cabs_pow2.
Qed.

End WithLibraries.

(** *** The one-point front end on a sample of silence *)

Lemma of_pcm_0 : of_pcm 0 = 0.
Proof. unfold of_pcm. lra. Qed.

Lemma cabs_0 : cabs (0 * 1, 0) = 0.
Proof.
  unfold cabs, norm2. cbn [fst snd].
  replace (0 * 1 * (0 * 1) + 0 * 0) with 0 by lra. apply sqrt_0.
Qed.

Lemma ln_clip_val_negative : ln (Rmax 0 clip_val) < 0.
Proof.
  unfold clip_val. rewrite Rmax_right by lra.
  rewrite <- ln_1. apply ln_increasing; lra.
Qed.

(** The transform gives 0 on silence; the logarithm of the clamped
    magnitude mel gives [ln 1e-5]. *)
Lemma silence_differs :
  MelSpectrogram stft_1 hann_1 fbank_1 (transform_params args_1 0) [of_pcm 0]
  <> log_magnitude_mel stft_1 hann_1 fbank_1 (transform_params args_1 0)
                       [of_pcm 0].
Proof.
  rewrite MelSpectrogram_power2 by reflexivity.
  unfold power_mel, log_magnitude_mel, stft_1, fbank_1, hann_1, project.
  cbn. rewrite of_pcm_0.
  intros H. injection H as H. revert H.
  unfold norm2. cbn [fst snd]. rewrite cabs_0.
  pose proof ln_clip_val_negative as Hneg.
  replace (1 * 0 + 0) with 0 by lra.
  intros H. lra.
Qed.

(** *** The one-point front end on a sample at half scale *)







End SpectralFacts.

(** ** Binary64 arithmetic on the integers the split meets *)

Module FloatFacts.

Lemma digits2_pos_size p : digits2_pos p = Pos.size p.
Proof. induction p; simpl; congruence. Qed.

Lemma Zdigits2_log2 p : Zdigits2 (Zpos p) = Z.log2 (Zpos p) + 1.
Proof.
  unfold Zdigits2. rewrite digits2_pos_size.
  destruct p; simpl; try rewrite Pos2Z.inj_succ; lia.
Qed.

Lemma Zdigits2_bounds p :
  2 ^ (Zdigits2 (Zpos p) - 1) <= Zpos p < 2 ^ Zdigits2 (Zpos p).
Proof.
  rewrite Zdigits2_log2.
  replace (Z.log2 (Zpos p) + 1 - 1) with (Z.log2 (Zpos p)) by lia.
  replace (Z.log2 (Zpos p) + 1) with (Z.succ (Z.log2 (Zpos p))) by lia.
  apply Z.log2_spec. lia.
Qed.

Lemma Zdigits2_unique p d :
  2 ^ (d - 1) <= Zpos p < 2 ^ d -> Zdigits2 (Zpos p) = d.
Proof.
  intros H. rewrite Zdigits2_log2.
  assert (0 < d). { destruct (Z.le_gt_cases d 0) as [Hd|]; [|lia].
    assert (2 ^ d <= 2 ^ 0) by (apply Z.pow_le_mono_r; lia). simpl in *. lia. }
  rewrite (Z.log2_unique (Zpos p) (d - 1)); try lia.
  replace (Z.succ (d - 1)) with d by lia. exact H.
Qed.

Lemma shr_1_m x : 0 <= shr_m x -> shr_m (shr_1 x) = shr_m x / 2.
Proof.
  destruct x as [m r s]. simpl. intros Hm.
  destruct m as [| [p | p |] | p]; cbn [shr_1 shr_m]; [| | | | lia].
  - reflexivity.
  - apply (Z.div_unique _ 2 _ 1); lia.
  - apply (Z.div_unique _ 2 _ 0); lia.
  - reflexivity.
Qed.

Lemma pow2_xO p : 2 ^ Zpos p~0 = 2 ^ Zpos p * 2 ^ Zpos p.
Proof.
  replace (Zpos p~0) with (Zpos p + Zpos p) by lia.
  apply Z.pow_add_r; lia.
Qed.

Lemma pow2_xI p : 2 ^ Zpos p~1 = 2 * (2 ^ Zpos p * 2 ^ Zpos p).
Proof.
  replace (Zpos p~1) with (1 + (Zpos p + Zpos p)) by lia.
  rewrite Z.pow_add_r, Z.pow_add_r by lia. reflexivity.
Qed.

Lemma iter_pos_shr_m p x :
  0 <= shr_m x -> shr_m (SpecFloat.iter_pos shr_1 p x) = shr_m x / 2 ^ Zpos p.
Proof.
  revert x. induction p as [p IH | p IH |]; intros x Hx; simpl SpecFloat.iter_pos.
  - assert (H1 : 0 <= shr_m (shr_1 x)).
    { rewrite shr_1_m by easy. apply Z.div_pos; lia. }
    assert (H2 : 0 <= shr_m (SpecFloat.iter_pos shr_1 p (shr_1 x))).
    { rewrite IH by easy. apply Z.div_pos; lia. }
    rewrite IH, IH, shr_1_m by easy.
    rewrite pow2_xI, !Z.div_div by lia. reflexivity.
  - assert (H2 : 0 <= shr_m (SpecFloat.iter_pos shr_1 p x)).
    { rewrite IH by easy. apply Z.div_pos; lia. }
    rewrite IH, IH by easy.
    rewrite pow2_xO, !Z.div_div by lia. reflexivity.
  - rewrite shr_1_m by easy. reflexivity.
Qed.

Lemma shr_spec mrs e n :
  0 <= shr_m mrs -> 0 <= n ->
  shr_m (fst (shr mrs e n)) = shr_m mrs / 2 ^ n /\ snd (shr mrs e n) = e + n.
Proof.
  intros Hm Hn. destruct n as [| p | p]; simpl; try lia.
  - rewrite Z.div_1_r. lia.
  - split; [now apply iter_pos_shr_m | reflexivity].
Qed.

Lemma round_nearest_even_range m l :
  m <= round_nearest_even m l <= m + 1.
Proof.
  destruct l as [| []]; simpl; try lia. destruct (Z.even m); lia.
Qed.

Lemma shr_m_of_loc m l : shr_m (shr_record_of_loc m l) = m.
Proof. destruct l as [| []]; reflexivity. Qed.

Lemma fexp_normal e : -1074 <= e - 53 -> fexp PyFloat.prec PyFloat.emax e = e - 53.
Proof. intros H. unfold fexp, emin, PyFloat.prec, PyFloat.emax. lia. Qed.

Lemma mantissa_after_shift M D :
  53 <= D -> 2 ^ (D - 1) <= M < 2 ^ D ->
  2 ^ 52 <= M / 2 ^ (D - 53) < 2 ^ 53.
Proof.
  intros HD [Hlo Hhi].
  assert (Hp : 0 < 2 ^ (D - 53)) by (apply Z.pow_pos_nonneg; lia).
  split.
  - apply Z.div_le_lower_bound; [lia |].
    rewrite <- Z.pow_add_r by lia.
    replace (D - 53 + 52) with (D - 1) by lia. exact Hlo.
  - apply Z.div_lt_upper_bound; [lia |].
    rewrite <- Z.pow_add_r by lia.
    replace (D - 53 + 53) with D by lia. exact Hhi.
Qed.

(** A mantissa of exactly 53 bits is left as it is. *)
Lemma binary_round_aux_canonical s m e :
  Zdigits2 (Zpos m) = 53 -> -1074 <= e <= 971 ->
  binary_round_aux PyFloat.prec PyFloat.emax s (Zpos m) e loc_Exact = S754_finite s m e.
Proof.
  intros Hd He. unfold binary_round_aux, shr_fexp.
  rewrite Hd, fexp_normal by lia.
  replace (53 + e - 53 - e) with 0 by lia.
  cbn [shr shr_record_of_loc shr_m loc_of_shr_record round_nearest_even].
  rewrite Hd, fexp_normal by lia.
  replace (53 + e - 53 - e) with 0 by lia.
  cbn [shr shr_record_of_loc shr_m].
  unfold PyFloat.emax, PyFloat.prec. destruct (Z.leb_spec e (1024 - 53)); [reflexivity | lia].
Qed.

(** Rounding a wider mantissa: what is kept is the quotient by the
    power of two shifted out, or its successor. *)
Lemma binary_round_aux_wide s M e :
  let D := Zdigits2 (Zpos M) in
  53 <= D -> -1074 <= D + e - 53 -> D + e <= 1023 ->
  exists m2 m3 e3,
    binary_round_aux PyFloat.prec PyFloat.emax s (Zpos M) e loc_Exact = S754_finite s m3 e3
    /\ Zpos M / 2 ^ (D - 53) <= m2 <= Zpos M / 2 ^ (D - 53) + 1
    /\ e + (D - 53) <= e3 <= e + (D - 53) + 1
    /\ Zpos m3 = m2 / 2 ^ (e3 - (e + (D - 53))).
Proof.
  intros D HD Hlo Hhi.
  pose proof (Zdigits2_bounds M) as HM. fold D in HM.
  pose proof (mantissa_after_shift (Zpos M) D HD HM) as Hm1.
  unfold binary_round_aux, shr_fexp. fold D.
  rewrite fexp_normal by lia.
  replace (D + e - 53 - e) with (D - 53) by lia.
  destruct (shr_spec (shr_record_of_loc (Zpos M) loc_Exact) e (D - 53))
    as [Hm He]; [simpl; lia | lia |].
  destruct (shr (shr_record_of_loc (Zpos M) loc_Exact) e (D - 53))
    as [mrs' e'] eqn:Hshr.
  cbn [fst snd] in Hm, He. rewrite shr_m_of_loc in Hm. subst e'.
  set (m2 := round_nearest_even (shr_m mrs') (loc_of_shr_record mrs')).
  pose proof (round_nearest_even_range (shr_m mrs') (loc_of_shr_record mrs'))
    as Hr. fold m2 in Hr. rewrite Hm in Hr.
  assert (Hm2 : 2 ^ 52 <= m2 <= 2 ^ 53) by lia.
  destruct m2 as [| q | q] eqn:Hq; [lia | | lia].
  set (D2 := Zdigits2 (Zpos q)).
  pose proof (Zdigits2_bounds q) as Hq2. fold D2 in Hq2.
  assert (HD2 : 53 <= D2 <= 54).
  { split.
    - destruct (Z.lt_ge_cases D2 53) as [Hlt |]; [| lia].
      assert (2 ^ D2 <= 2 ^ 52) by (apply Z.pow_le_mono_r; lia). lia.
    - destruct (Z.lt_ge_cases 54 D2) as [Hlt |]; [| lia].
      assert (2 ^ 54 <= 2 ^ (D2 - 1)) by (apply Z.pow_le_mono_r; lia). lia. }
  rewrite fexp_normal by lia.
  replace (D2 + (e + (D - 53)) - 53 - (e + (D - 53))) with (D2 - 53) by lia.
  destruct (shr_spec (shr_record_of_loc (Zpos q) loc_Exact) (e + (D - 53)) (D2 - 53))
    as [Hm' He']; [simpl; lia | lia |].
  destruct (shr (shr_record_of_loc (Zpos q) loc_Exact) (e + (D - 53)) (D2 - 53))
    as [mrs'' e''] eqn:Hshr'.
  cbn [fst snd] in Hm', He'. rewrite shr_m_of_loc in Hm'. subst e''.
  pose proof (mantissa_after_shift (Zpos q) D2 (proj1 HD2) Hq2) as Hm3.
  rewrite <- Hm' in Hm3.
  destruct (shr_m mrs'') as [| m3 | m3] eqn:Hm3'; [lia | | lia].
  unfold PyFloat.emax, PyFloat.prec.
  destruct (Z.leb_spec (e + (D - 53) + (D2 - 53)) (1024 - 53)); [| lia].
  exists (Zpos q), m3, (e + (D - 53) + (D2 - 53)).
  split; [reflexivity |]. split; [lia |]. split; [lia |].
  rewrite Hm'. f_equal. f_equal. lia.
Qed.

Lemma shl_align_spec mx ex ex' :
  ex' <= ex ->
  exists mz, shl_align mx ex ex' = (mz, ex')
             /\ Zpos mz = Zpos mx * 2 ^ (ex - ex').
Proof.
  intros H. unfold shl_align.
  destruct (ex' - ex) as [| k | k] eqn:Hk; [| lia |].
  - exists mx. assert (ex' = ex) by lia. subst.
    rewrite Z.sub_diag, Z.mul_1_r. split; reflexivity.
  - exists (Pos.iter xO mx k). split; [reflexivity |].
    replace (ex - ex') with (Zpos k) by lia.
    change (Pos.iter xO mx k) with (shift_pos k mx).
    rewrite shift_pos_correct. rewrite Zpower_pos_nat, Zpower_nat_Z.
    rewrite positive_nat_Z. lia.
Qed.

(** [float(n)] is exact for an integer of at most 53 bits. *)
Lemma of_int_exact p :
  let d := Zdigits2 (Zpos p) in
  d <= 53 ->
  exists mz, binary_normalize PyFloat.prec PyFloat.emax (Zpos p) 0 false
             = S754_finite false mz (d - 53)
             /\ Zpos mz = Zpos p * 2 ^ (53 - d)
             /\ Zdigits2 (Zpos mz) = 53.
Proof.
  intros d Hd.
  pose proof (Zdigits2_bounds p) as Hp. fold d in Hp.
  assert (0 < d).
  { destruct (Z.lt_ge_cases 0 d); [easy |].
    assert (2 ^ d <= 2 ^ 0) by (apply Z.pow_le_mono_r; lia). simpl in *. lia. }
  unfold binary_normalize, binary_round.
  change (Zpos (digits2_pos p)) with d.
  rewrite Z.add_0_r, fexp_normal by lia.
  destruct (shl_align_spec p 0 (d - 53)) as (mz & Hal & Hmz); [lia |].
  rewrite Hal. replace (0 - (d - 53)) with (53 - d) in Hmz by lia.
  assert (Hdz : Zdigits2 (Zpos mz) = 53).
  { apply Zdigits2_unique. rewrite Hmz. split.
    - replace (53 - 1) with ((d - 1) + (53 - d)) by lia.
      rewrite Z.pow_add_r by lia. apply Z.mul_le_mono_nonneg_r; [| lia].
      apply Z.pow_nonneg; lia.
    - replace 53 with (d + (53 - d)) at 2 by lia.
      rewrite Z.pow_add_r by lia. apply Z.mul_lt_mono_pos_r; [| lia].
      apply Z.pow_pos_nonneg; lia. }
  exists mz. split; [| split; [exact Hmz | exact Hdz]].
  apply binary_round_aux_canonical; [exact Hdz | lia].
Qed.

(** [1 - 0.1] is the double nearest to nine tenths. *)
Lemma nine_tenths :
  PyFloat.sub PyFloat.one PyFloat.one_tenth
  = S754_finite false 8106479329266893 (-53).
Proof. reflexivity. Qed.

(** [int(n * (1 - 0.1))] is [floor(9 n / 10)]: the double product is
    never far enough from the exact one to cross an integer. *)
Lemma split_point_exact n :
  0 <= n < 2 ^ 49 ->
  Split.split_point n PyFloat.one_tenth = Ok (9 * n / 10).
Proof.
  intros Hn. unfold Split.split_point. rewrite nine_tenths.
  destruct n as [| p | p]; [reflexivity | | lia].
  set (d := Zdigits2 (Zpos p)).
  pose proof (Zdigits2_bounds p) as Hp. fold d in Hp.
  assert (Hd : d <= 49).
  { destruct (Z.lt_ge_cases 49 d) as [Hlt |]; [| lia].
    assert (2 ^ 49 <= 2 ^ (d - 1)) by (apply Z.pow_le_mono_r; lia). lia. }
  assert (Hd0 : 0 < d).
  { destruct (Z.lt_ge_cases 0 d); [easy |].
    assert (2 ^ d <= 2 ^ 0) by (apply Z.pow_le_mono_r; lia). simpl in *. lia. }
  destruct (of_int_exact p) as (mz & Hof & Hmz & Hdz); [fold d; lia |].
  fold d in Hof, Hmz.
  unfold PyFloat.of_int. rewrite Hof.
  unfold PyFloat.mul, SFmul. cbn [xorb].
  set (c := 8106479329266893%positive).
  pose proof (Zdigits2_bounds mz) as HX. rewrite Hdz in HX.
  set (X := Zpos mz) in *.
  set (D := Zdigits2 (Zpos (mz * c))).
  pose proof (Zdigits2_bounds (mz * c)) as HM. fold D in HM.
  rewrite Pos2Z.inj_mul in HM. fold X in HM.
  assert (HD : 105 <= D <= 106).
  { split.
    - destruct (Z.lt_ge_cases D 105) as [Hlt |]; [| lia].
      assert (2 ^ D <= 2 ^ 104) by (apply Z.pow_le_mono_r; lia).
      assert (2 ^ 52 * Zpos c <= X * Zpos c)
        by (apply Z.mul_le_mono_nonneg_r; lia).
      unfold c in *. lia.
    - destruct (Z.lt_ge_cases 106 D) as [Hlt |]; [| lia].
      assert (2 ^ 106 <= 2 ^ (D - 1)) by (apply Z.pow_le_mono_r; lia).
      assert (X * Zpos c <= 2 ^ 53 * Zpos c)
        by (apply Z.mul_le_mono_nonneg_r; lia).
      unfold c in *. lia. }
  destruct (binary_round_aux_wide false (mz * c) (d - 53 + -53))
    as (m2 & m3 & e3 & Hr & Hm2 & He3 & Hm3); fold D; [lia | lia | lia |].
  fold D in Hm2, He3, Hm3. rewrite Hr.
  unfold PyFloat.to_int, PyFloat.signed, PyFloat.int_part.
  destruct (Z.leb_spec 0 e3) as [| _]; [lia |].
  f_equal. rewrite Z.shiftr_div_pow2 by lia. rewrite Hm3.
  rewrite Z.div_div, <- Z.pow_add_r by lia.
  replace (e3 - (d - 53 + -53 + (D - 53)) + - e3) with (159 - d - D) by lia.
  rewrite Pos2Z.inj_mul in Hm2. fold X in Hm2.
  (* the quantities of the estimate *)
  set (A := 2 ^ (53 - d)) in *.
  set (B := 2 ^ (D - 53)) in *.
  set (K := 2 ^ (159 - d - D)).
  set (F := 9 * Zpos p / 10).
  assert (HA : 16 <= A).
  { change 16 with (2 ^ 4). apply Z.pow_le_mono_r; lia. }
  assert (HB : 0 < B <= 2 ^ 53).
  { split; [apply Z.pow_pos_nonneg; lia | apply Z.pow_le_mono_r; lia]. }
  assert (HK : 0 < K) by (apply Z.pow_pos_nonneg; lia).
  assert (HBK : B * K = A * 2 ^ 53).
  { unfold B, K, A. rewrite <- !Z.pow_add_r by lia. f_equal. lia. }
  assert (HF : 10 * F <= 9 * Zpos p < 10 * F + 10).
  { pose proof (Z.div_mod (9 * Zpos p) 10) as Hdm.
    pose proof (Z.mod_pos_bound (9 * Zpos p) 10) as Hmb.
    fold F in Hdm. lia. }
  assert (HY1 : 10 * (F * A) <= 9 * X).
  { rewrite Hmz. replace (10 * (F * A)) with ((10 * F) * A) by ring.
    replace (9 * (Zpos p * A)) with ((9 * Zpos p) * A) by ring.
    apply Z.mul_le_mono_nonneg_r; lia. }
  assert (HY2 : 9 * X + A <= 10 * (F * A) + 10 * A).
  { rewrite Hmz.
    replace (9 * (Zpos p * A) + A) with ((9 * Zpos p + 1) * A) by ring.
    replace (10 * (F * A) + 10 * A) with ((10 * F + 10) * A) by ring.
    apply Z.mul_le_mono_nonneg_r; lia. }
  assert (Hc : 10 * Zpos c = 9 * 2 ^ 53 + 2) by reflexivity.
  assert (Hlow : F * K <= X * Zpos c / B).
  { apply Z.div_le_lower_bound; [lia |].
    replace (B * (F * K)) with (F * (B * K)) by ring.
    rewrite HBK. replace (F * (A * 2 ^ 53)) with ((F * A) * 2 ^ 53) by ring.
    nia. }
  assert (Hup : X * Zpos c / B < (F + 1) * K - 1).
  { apply Z.div_lt_upper_bound; [lia |].
    replace (B * ((F + 1) * K - 1)) with ((F + 1) * (B * K) - B) by ring.
    rewrite HBK.
    replace ((F + 1) * (A * 2 ^ 53)) with ((F * A) * 2 ^ 53 + A * 2 ^ 53) by ring.
    nia. }
  assert (F <= m2 / K) by (apply Z.div_le_lower_bound; lia).
  assert (m2 / K < F + 1) by (apply Z.div_lt_upper_bound; lia).
  lia.
Qed.

End FloatFacts.

(** ** The train / validation split *)

Module SplitFacts.
Import Random Corpus Split SliceFacts RandomFacts FloatFacts Concrete.

(** The two slices of lines 115-116 on a list of [N] items. *)
Lemma shuffle_and_split_sizes filelist g :
  Z.of_nat (length filelist) < 2 ^ 49 ->
  exists train val shuffled g',
    shuffle_and_split filelist PyFloat.one_tenth g
    = Ok (train, val, shuffled, g')
    /\ Permutation filelist shuffled
    /\ train ++ val = shuffled
    /\ Z.of_nat (length train) = 9 * Z.of_nat (length filelist) / 10
    /\ Z.of_nat (length val)
       = Z.of_nat (length filelist) - 9 * Z.of_nat (length filelist) / 10.
Proof.
  intros HN. unfold shuffle_and_split.
  pose proof (shuffle_perm filelist g) as Hperm.
  pose proof (shuffle_length filelist g) as Hlen.
  destruct (shuffle filelist g) as [shuffled g']. cbn [fst] in Hperm, Hlen.
  rewrite Hlen, split_point_exact by lia.
  cbn [mbind result_bind Py.bind].
  set (N := Z.of_nat (length filelist)) in *.
  assert (Hk : 0 <= 9 * N / 10 <= N).
  { pose proof (Z.div_mod (9 * N) 10) as Hdm.
    pose proof (Z.mod_pos_bound (9 * N) 10) as Hmb. lia. }
  eexists _, _, _, _. split; [reflexivity |].
  split; [exact Hperm |].
  split; [apply slice_to_from |].
  split.
  - rewrite length_slice_to; [reflexivity | rewrite Hlen; exact Hk].
  - rewrite length_slice_from; [now rewrite Hlen | rewrite Hlen; exact Hk].
Qed.

(** C7.  With [num_validation = 0.1], once the indexing has produced
    a list of [N] files, [get_dataset_filelist] returns a training
    list of exactly [floor(9 N / 10)] items and a validation list of
    the remaining [N - floor(9 N / 10)]; the training list followed
    by the validation list is the shuffled list, itself a reordering
    of the files found.  The split point is computed in binary64 as
    the code does; the bound on [N] keeps [float(N)] far inside the
    exactly representable integers (it is [2^49] files). *)
Theorem split_sizes fs h g filelist :
  extract_all fs (base_pth h) (cls_pth h) None = Ok (Some filelist) ->
  num_validation h = PyFloat.one_tenth ->
  Z.of_nat (length filelist) < 2 ^ 49 ->
  exists train val shuffled g',
    get_dataset_filelist fs h g = Ok (train, val, shuffled, g')
    /\ Permutation filelist shuffled
    /\ train ++ val = shuffled
    /\ Z.of_nat (length train) = 9 * Z.of_nat (length filelist) / 10
    /\ Z.of_nat (length val)
       = Z.of_nat (length filelist) - 9 * Z.of_nat (length filelist) / 10.
Proof.
  intros Hidx Hnv HN. unfold get_dataset_filelist.
  rewrite Hidx, Hnv. cbn [mbind result_bind Py.bind].
  now apply shuffle_and_split_sizes.
Qed.

(** The flat example: two files found, one for training and one for
    validation. *)
Lemma split_sizes_run :
  exists train val shuffled g',
    get_dataset_filelist example_fs h_flat (rng_const 0)
    = Ok (train, val, shuffled, g')
    /\ Permutation ["/data/a/b/x/f1"; "/data/a/b/x/f2"]%string shuffled
    /\ train ++ val = shuffled
    /\ Z.of_nat (length train) = 1
    /\ Z.of_nat (length val) = 1.
Proof.
  apply (split_sizes example_fs h_flat (rng_const 0)
           ["/data/a/b/x/f1"; "/data/a/b/x/f2"]%string);
    [reflexivity | reflexivity | vm_compute; reflexivity].
Defined.

(** Ten and eleven files both leave nine for training. *)
Lemma split_point_examples :
  map (fun n => split_point n PyFloat.one_tenth) [0; 1; 9; 10; 11; 12345]
  = [Ok 0; Ok 0; Ok 8; Ok 9; Ok 9; Ok 11110].
Proof. reflexivity. Qed.

End SplitFacts.

(** ** Strings *)

Module StringFacts.

Lemma append_cons x (a b : string) :
  (String x a ++ b = String x (a ++ b))%string.
Proof. reflexivity. Qed.

Lemma append_nil_l (b : string) : ("" ++ b = b)%string.
Proof. reflexivity. Qed.

Lemma append_assoc (a b c : string) : ((a ++ b) ++ c = a ++ (b ++ c))%string.
Proof.
  induction a as [| x a IH]; [reflexivity |].
  now rewrite !append_cons, IH.
Qed.

Lemma length_append (a b : string) :
  String.length (a ++ b) = (String.length a + String.length b)%nat.
Proof.
  induction a as [| x a IH]; [reflexivity |].
  rewrite append_cons. cbn [String.length]. now rewrite IH.
Qed.

(** Appending the same suffix to different strings gives different
    strings. *)
Lemma append_cancel_r (a b t : string) : (a ++ t = b ++ t)%string -> a = b.
Proof.
  revert b. induction a as [| x a IH]; intros [| y b] H.
  - reflexivity.
  - apply (f_equal String.length) in H.
    rewrite append_nil_l, append_cons in H. cbn [String.length] in H.
    rewrite length_append in H. lia.
  - apply (f_equal String.length) in H.
    rewrite append_nil_l, append_cons in H. cbn [String.length] in H.
    rewrite length_append in H. lia.
  - rewrite !append_cons in H. inversion H; subst. f_equal. now apply IH.
Qed.

Lemma list_ascii_of_append (a b : string) :
  list_ascii_of_string (a ++ b)
  = list_ascii_of_string a ++ list_ascii_of_string b.
Proof.
  induction a as [| x a IH]; [reflexivity |].
  rewrite append_cons. cbn [list_ascii_of_string]. now rewrite IH.
Qed.

End StringFacts.

(** ** The hand-written extractor [mel_spectrogram] *)

Module ExtractorFacts.
Import Dataset Spectral CacheFacts.
Local Open Scope R_scope.

(** A compressed value is never below [ln clip_val]. *)
Lemma compression_lower_bound x :
  ln clip_val <= dynamic_range_compression_torch x.
Proof.
  unfold dynamic_range_compression_torch. rewrite Rmult_1_r.
  assert (0 < clip_val) by (unfold clip_val; lra).
  pose proof (Rmax_r x clip_val) as Hr.
  destruct (Req_dec (Rmax x clip_val) clip_val) as [-> | Hne]; [lra |].
  left. apply ln_increasing; lra.
Qed.

Section WithLibraries.
Variable stft : Z -> Z -> Z -> list R -> bool -> list R -> list (list complex).
Variable torch_hann_window : Z -> list R.
Variable librosa_mel_fn : Z -> Z -> Z -> Z -> option Z -> list (list R).

Abbreviation mel_spectrogram :=
  (mel_spectrogram stft torch_hann_window librosa_mel_fn).
Abbreviation refresh_caches :=
  (refresh_caches torch_hann_window librosa_mel_fn).

(** What a call computes, written without the caches. *)
Lemma mel_spectrogram_value st y device n_fft num_mels sr hop win
      fmin fmax center p :
  half_overlap n_fft hop = Ok p ->
  (0 <= p < Z.of_nat (length y))%Z ->
  mel_spectrogram st y device n_fft num_mels sr hop win fmin fmax center
  = Ok (spectral_normalize_torch
          (project (librosa_mel_fn sr n_fft num_mels fmin fmax)
             (map (map (fun c => sqrt (norm2 c + 1 / 1000000000)))
                (stft n_fft hop win (torch_hann_window win) center
                   (rev (firstn (Z.to_nat p) (skipn 1 y)) ++ y
                    ++ firstn (Z.to_nat p) (skipn 1 (rev y)))))),
        refresh_caches st device n_fft num_mels sr win fmin fmax).
Proof.
  intros Hp Hlen. unfold Spectral.mel_spectrogram.
  rewrite Hp. cbn [mbind result_bind Py.bind].
  unfold reflect_pad.
  destruct (Z.ltb_spec p 0) as [| _]; [lia |].
  destruct (Z.leb_spec (Z.of_nat (length y)) p) as [| _]; [lia |].
  cbn [mbind result_bind Py.bind].
  rewrite refresh_caches_always. cbn [hann_window mel_basis].
  unfold lookup_key. rewrite !lookup_insert_eq.
  reflexivity.
Qed.

(** The spectrogram returned does not depend on what the caches held:
    whenever a call returns from one cache state, the same call from any
    other cache state returns the same spectrogram.  The basis and the
    window used are always those of the current arguments, even when an
    entry for the same key was stored by a call with another sampling
    rate, [n_fft] or window size. *)
Theorem mel_spectrogram_ignores_caches st1 st2 y device n_fft num_mels sr
        hop win fmin fmax center spec st1' :
  mel_spectrogram st1 y device n_fft num_mels sr hop win fmin fmax center
  = Ok (spec, st1') ->
  mel_spectrogram st2 y device n_fft num_mels sr hop win fmin fmax center
  = Ok (spec, refresh_caches st2 device n_fft num_mels sr win fmin fmax).
Proof.
  unfold Spectral.mel_spectrogram. intros H.
  destruct (half_overlap n_fft hop) as [p |]; [| discriminate].
  cbn [mbind result_bind Py.bind] in *.
  destruct (reflect_pad p y) as [y' |]; [| discriminate].
  cbn [mbind result_bind Py.bind] in *.
  rewrite refresh_caches_always in *. cbn [hann_window mel_basis] in *.
  unfold lookup_key in *. rewrite !lookup_insert_eq in *.
  cbn [mbind result_bind Py.bind] in *.
  inversion H; subst. reflexivity.
Qed.

(** A waveform no longer than the reflected margin is refused. *)
Theorem mel_spectrogram_short_input st y device n_fft num_mels sr hop win
        fmin fmax center p :
  half_overlap n_fft hop = Ok p ->
  (Z.of_nat (length y) <= p)%Z ->
  mel_spectrogram st y device n_fft num_mels sr hop win fmin fmax center
  = Raise RuntimeError.
Proof.
  intros Hp Hlen. unfold Spectral.mel_spectrogram.
  rewrite Hp. cbn [mbind result_bind Py.bind].
  unfold reflect_pad.
  destruct (Z.ltb_spec p 0) as [| _]; [lia |].
  destruct (Z.leb_spec (Z.of_nat (length y)) p) as [_ |]; [| lia].
  reflexivity.
Qed.

(** The two dictionary reads of a call never miss: whatever the caches
    hold and whatever the arguments, [KeyError] is not among the
    errors. *)
Theorem mel_spectrogram_no_key_error st y device n_fft num_mels sr hop win
        fmin fmax center :
  mel_spectrogram st y device n_fft num_mels sr hop win fmin fmax center
  <> Raise KeyError.
Proof.
  unfold Spectral.mel_spectrogram.
  destruct (half_overlap n_fft hop) as [p | e] eqn:Hp.
  - cbn [mbind result_bind Py.bind].
    destruct (reflect_pad p y) as [y' |] eqn:Hpad.
    + cbn [mbind result_bind Py.bind].
      rewrite refresh_caches_always. cbn [hann_window mel_basis].
      unfold lookup_key. rewrite !lookup_insert_eq. discriminate.
    + cbn [mbind result_bind Py.bind]. unfold reflect_pad in Hpad.
      destruct (p <? 0)%Z;
        [destruct (Z.of_nat (length y) + 2 * p <? 1)%Z
        | destruct (Z.of_nat (length y) <=? p)%Z];
        inversion Hpad; discriminate.
  - cbn [mbind result_bind Py.bind].
    unfold half_overlap, PyFloat.div in Hp.
    change (PyFloat.is_zero (PyFloat.of_int 2)) with false in Hp.
    cbn [mbind result_bind Py.bind] in Hp.
    unfold PyFloat.to_int in Hp.
    destruct (SFdiv _ _ _ _); inversion Hp; discriminate.
Qed.

(** Every cell of the result is at least [ln 1e-5], and the result has
    one frame per frame of the transform and one cell per row of the
    mel basis. *)
Theorem mel_spectrogram_cells st y device n_fft num_mels sr hop win
        fmin fmax center spec st' :
  mel_spectrogram st y device n_fft num_mels sr hop win fmin fmax center
  = Ok (spec, st') ->
  Forall (fun frame =>
            length frame = length (librosa_mel_fn sr n_fft num_mels fmin fmax)
            /\ Forall (fun x => ln clip_val <= x) frame) spec.
Proof.
  unfold Spectral.mel_spectrogram. intros H.
  destruct (half_overlap n_fft hop) as [p |]; [| discriminate].
  cbn [mbind result_bind Py.bind] in H.
  destruct (reflect_pad p y) as [y' |]; [| discriminate].
  cbn [mbind result_bind Py.bind] in H.
  rewrite refresh_caches_always in H. cbn [hann_window mel_basis] in H.
  unfold lookup_key in H. rewrite !lookup_insert_eq in H.
  cbn [mbind result_bind Py.bind] in H. inversion H; subst; clear H.
  unfold spectral_normalize_torch, project.
  rewrite Forall_map, Forall_map. apply Forall_true. intros frame.
  split.
  - now rewrite !length_map.
  - rewrite Forall_map, Forall_map. apply Forall_true. intros filter.
    apply compression_lower_bound.
Qed.

End WithLibraries.
End ExtractorFacts.

(** ** Corpus indexing on flat configurations *)

Module WalkFacts.
Import Random Corpus Split SliceFacts RandomFacts.

Section WithDisk.
Variable fs : filesystem.

(** The files one key contributes: for each child, in order, the
    regular files of [base/key/child/] when that directory exists. *)
Lemma scan_children_flat prefix names acc :
  scan_children fs prefix names acc
  = acc ++ flat_map (fun child =>
                       if isdir fs (prefix ++ child ++ "/")%string
                       then files_of_dir fs (prefix ++ child ++ "/")%string
                       else []) names.
Proof.
  revert acc. induction names as [| child rest IH]; intros acc; cbn [scan_children flat_map].
  - now rewrite app_nil_r.
  - rewrite IH. destruct (isdir fs _); [| reflexivity].
    now rewrite <- app_assoc.
Qed.

Lemma walk_keys_flat self_call base kvs acc :
  Forall (fun kv => exists names, snd kv = Children names) kvs ->
  walk_keys fs self_call base kvs acc
  = Ok (acc ++ flat_map
                 (fun kv =>
                    match snd kv with
                    | Children names =>
                        flat_map (fun child =>
                                    let fd := (base ++ fst kv ++ "/" ++ child ++ "/")%string in
                                    if isdir fs fd then files_of_dir fs fd else [])
                                 names
                    | Mapping _ => []
                    end) kvs).
Proof.
  intros Hflat. revert acc.
  induction Hflat as [| [key v] rest [names Hv] _ IH]; intros acc.
  - cbn. now rewrite app_nil_r.
  - cbn [snd] in Hv. subst v. cbn [walk_keys flat_map fst snd].
    rewrite IH, scan_children_flat, <- app_assoc. do 3 f_equal.
    apply flat_map_ext. intros child.
    now rewrite !StringFacts.append_assoc.
Qed.


(** Every path the walk returns is a regular file that [os.listdir]
    reported directly inside an existing directory
    [base/key/child/] named by the configuration. *)
Theorem returned_paths_are_files base kvs files p :
  Forall (fun kv => exists names, snd kv = Children names) kvs ->
  recursive_file_extract fs base (Mapping kvs) = Ok files ->
  In p files ->
  isfile fs p = true
  /\ exists key names child f,
      In (key, Children names) kvs
      /\ In child names
      /\ isdir fs (base ++ key ++ "/" ++ child ++ "/")%string = true
      /\ In f (listdir fs (base ++ key ++ "/" ++ child ++ "/")%string)
      /\ p = os_path_join (base ++ key ++ "/" ++ child ++ "/")%string f.
Proof.
  intros Hflat Hrun Hp. cbn [recursive_file_extract] in Hrun.
  rewrite walk_keys_flat in Hrun by exact Hflat.
  inversion Hrun; subst; clear Hrun. cbn [app] in Hp.
  apply in_flat_map in Hp as ([key v] & Hkv & Hp). cbn [fst snd] in Hp.
  destruct v as [| names]; [destruct Hp |].
  apply in_flat_map in Hp as (child & Hchild & Hp). cbn zeta in Hp.
  destruct (isdir fs _) eqn:Hdir; [| destruct Hp].
  unfold files_of_dir in Hp. apply in_map_iff in Hp as (f & Hf & Hin).
  apply filter_In in Hin as [Hlist Hfile]. subst p.
  split; [exact Hfile |].
  exists key, names, child, f. repeat split; assumption.
Qed.

(** The loop over the base paths concatenates what each base path
    gives, in order. *)
Theorem extract_all_concat bases cls (per_base : string -> list string) :
  bases <> [] ->
  (forall base, In base bases ->
                recursive_file_extract fs base cls = Ok (per_base base)) ->
  extract_all fs bases cls None = Ok (Some (flat_map per_base bases)).
Proof.
  intros Hne Hall.
  assert (Hgen : forall bs acc,
             (forall base, In base bs ->
                           recursive_file_extract fs base cls = Ok (per_base base)) ->
             extract_all fs bs cls (Some acc)
             = Ok (Some (acc ++ flat_map per_base bs))).
  { induction bs as [| b rest IH]; intros acc Hbs.
    - cbn. now rewrite app_nil_r.
    - cbn [extract_all flat_map]. rewrite (Hbs b) by now left.
      cbn [mbind result_bind Py.bind]. rewrite IH.
      + now rewrite <- app_assoc.
      + intros base Hin. apply Hbs. now right. }
  destruct bases as [| b rest]; [contradiction |].
  cbn [extract_all flat_map]. rewrite (Hall b) by now left.
  cbn [mbind result_bind Py.bind]. apply Hgen.
  intros base Hin. apply Hall. now right.
Qed.

(** With no base path there is no list to shuffle: the call raises
    [TypeError] whatever the configuration and the disk. *)
Theorem no_base_path_raises h g :
  base_pth h = [] -> get_dataset_filelist fs h g = Raise TypeError.
Proof.
  intros Hb. unfold get_dataset_filelist. now rewrite Hb.
Qed.

(** Whatever fraction is configured, below 0 or above 1 included, a
    call that returns has lost and repeated nothing: the training list
    followed by the validation list is the shuffled list, and the
    shuffled list is a reordering of the files found. *)
Theorem any_fraction_partitions h g train val shuffled g' :
  get_dataset_filelist fs h g = Ok (train, val, shuffled, g') ->
  train ++ val = shuffled
  /\ exists filelist,
      extract_all fs (base_pth h) (cls_pth h) None = Ok (Some filelist)
      /\ Permutation filelist shuffled.
Proof.
  unfold get_dataset_filelist. intros H.
  destruct (extract_all fs (base_pth h) (cls_pth h) None) as [[filelist |] |];
    try discriminate.
  cbn [mbind result_bind Py.bind] in H. unfold shuffle_and_split in H.
  pose proof (shuffle_perm filelist g) as Hperm.
  destruct (shuffle filelist g) as [sh gs]. cbn [fst] in Hperm.
  destruct (split_point _ _) as [k |]; [| discriminate].
  cbn [mbind result_bind Py.bind] in H. inversion H; subst; clear H.
  split; [apply slice_to_from |].
  exists filelist. split; [reflexivity | exact Hperm].
Qed.

End WithDisk.
End WalkFacts.

(** ** The dataset: cache, modes and bounds *)

Module LoaderFacts.
Import Random Dataset Loader SliceFacts RandomFacts DatasetFacts.

Section WithSignal.
Variable sample : Type.
Variable zero : sample.
Variable of_pcm : Z -> sample.
Variable resample : list sample -> Z -> list sample.

Abbreviation MelDataset := (MelDataset sample).
Abbreviation fetch_audio := (fetch_audio of_pcm resample).
Abbreviation segment_pair := (segment_pair zero).
Abbreviation getitem := (getitem zero of_pcm resample).
Abbreviation getitem_each := (getitem_each zero of_pcm resample).

Implicit Types (self : MelDataset) (audio : list sample).

(** Whatever a successful fetch started from, it leaves a waveform in
    the cache. *)
Lemma fetch_audio_fills_cache self d c filename audio c' :
  fetch_audio self d c filename = Ok (audio, c') ->
  is_Some (cached_wav c').
Proof.
  unfold Dataset.fetch_audio. intros H.
  destruct (cache_ref_count c =? 0).
  - destruct (load_wav d filename) as [[data rate] |]; [| discriminate].
    step_bind in H.
    destruct (if negb (rate =? sampling_rate self) then _ else _);
      [| discriminate].
    step_bind in H. inversion H; subst. cbn. eauto.
  - destruct (cached_wav c) as [w |] eqn:Hw; [| discriminate].
    inversion H; subst. cbn. eauto.
Qed.

Lemma getitem_cache self d h c index g it c' g' :
  getitem self d h c index g = Ok (it, c', g') ->
  is_Some (cached_wav c').
Proof.
  unfold Dataset.getitem. intros H.
  destruct (files_of self h) as [files |]; [| discriminate]. step_bind in H.
  destruct (Py.getitem files index) as [filename |]; [| discriminate].
  step_bind in H.
  destruct (Dataset.fetch_audio _ _ _ _ _ _) as [[audio c1] |] eqn:Hf;
    [| discriminate].
  step_bind in H.
  destruct (features _ _ _ _ _ _) as [[[mel a] g1] |]; [| discriminate].
  step_bind in H. inversion H; subst.
  eapply fetch_audio_fills_cache; eassumption.
Qed.

(** Starting from the cache the constructor sets up (no waveform,
    counter at 0), any run of calls that return leaves the cache in a
    state where a hit has a waveform to hand out: the counter is 0 or a
    waveform is stored. *)
Theorem cache_never_hits_empty self d h indices g its c g' :
  getitem_each self d h {| cached_wav := None; cache_ref_count := 0 |}
               indices g = Ok (its, c, g') ->
  cache_ref_count c = 0 \/ is_Some (cached_wav c).
Proof.
  assert (Hgen : forall idx c0 g0 its c g',
             cache_ref_count c0 = 0 \/ is_Some (cached_wav c0) ->
             getitem_each self d h c0 idx g0 = Ok (its, c, g') ->
             cache_ref_count c = 0 \/ is_Some (cached_wav c)).
  { induction idx as [| i rest IH]; intros c0 g0 its0 c1 g1 Hinv H.
    - cbn in H. inversion H; subst. exact Hinv.
    - cbn [Loader.getitem_each] in H.
      destruct (Dataset.getitem _ _ _ _ _ _ _ _ _) as [[[it c2] g2] |] eqn:Hg;
        [| discriminate].
      step_bind in H.
      destruct (Loader.getitem_each _ _ _ _ _ _ _ _ _) as [[[its' c3] g3] |] eqn:He;
        [| discriminate].
      step_bind in H. inversion H; subst.
      eapply IH; [| exact He]. right. eapply getitem_cache; exact Hg. }
  intros H. eapply Hgen; [| exact H]. now left.
Qed.

(** With the counter at the number of calls and a waveform stored,
    what such a run is in plain mode without splitting, on any disk. *)
Lemma cached_calls_run_of self h files w indices names g :
  files_of self h = Ok files ->
  fine_tuning self = false ->
  split self = false ->
  Forall2 (fun i name => Py.getitem files i = Ok name) indices names ->
  exists its,
    (forall d,
        getitem_each self d h
                     {| cached_wav := Some w;
                        cache_ref_count := Z.of_nat (length indices) |}
                     indices g
        = Ok (its, {| cached_wav := Some w; cache_ref_count := 0 |}, g))
    /\ map it_audio its = repeat w (length indices)
    /\ map it_filename its = names.
Proof.
  intros Hfiles Hft Hsplit Hall.
  induction Hall as [| i name indices names Hi _ IH].
  - exists []. repeat split.
  - destruct IH as (its & Hrun & Haudio & Hnames).
    eexists (_ :: its). split; [intros d | split].
    + cbn [Loader.getitem_each length].
      rewrite (getitem_whole_file sample zero of_pcm resample self d h _ i g
                 files name w
                 {| cached_wav := Some w;
                    cache_ref_count := Z.of_nat (length indices) |}
                 Hfiles Hi); [| | exact Hft | exact Hsplit].
      * step_bind. rewrite Hrun. step_bind. reflexivity.
      * rewrite (fetch_audio_hit sample of_pcm resample self d _ name w);
          cbn [cache_ref_count cached_wav]; [| lia | reflexivity].
        do 3 f_equal. lia.
    + cbn [map it_audio length repeat]. now rewrite Haudio.
    + cbn [map it_filename]. now rewrite Hnames.
Qed.

(** While the counter is positive the calls are served from the cache:
    with the counter at [k] and a waveform [w] stored, [k] calls in
    plain mode without splitting that return have returned [w] each
    time, under the file name at the index asked for, and have left the
    counter at 0 and the random state as it was.  No read of the disk
    is involved: the same run over any other disk returns the same
    items. *)
Theorem cached_calls self d h files w indices names g its c' g' :
  files_of self h = Ok files ->
  fine_tuning self = false ->
  split self = false ->
  Forall2 (fun i name => Py.getitem files i = Ok name) indices names ->
  getitem_each self d h
               {| cached_wav := Some w;
                  cache_ref_count := Z.of_nat (length indices) |}
               indices g
  = Ok (its, c', g') ->
  c' = {| cached_wav := Some w; cache_ref_count := 0 |}
  /\ g' = g
  /\ map it_audio its = repeat w (length indices)
  /\ map it_filename its = names
  /\ forall d',
       getitem_each self d' h
                    {| cached_wav := Some w;
                       cache_ref_count := Z.of_nat (length indices) |}
                    indices g
       = Ok (its, c', g').
Proof.
  intros Hfiles Hft Hsplit Hall Hrun.
  destruct (cached_calls_run_of self h files w indices names g
              Hfiles Hft Hsplit Hall) as (its0 & Hall0 & Haudio & Hnames).
  rewrite Hall0 in Hrun. inversion Hrun; subst; clear Hrun.
  repeat split; assumption.
Qed.


(** Fine-tuning mode, audio shorter than a segment: no draw is made,
    the audio is zero-padded to exactly [segment_size] samples, and the
    mel comes out with exactly [frames_per_seg] frames: its own frames
    followed by all-zero frames when it had at most that many, and its
    first [frames_per_seg] frames when it had more. *)
Theorem fine_tuning_short_audio self mel audio g fps :
  split self = true ->
  frames_per_seg_of (segment_size self) (hop_size self) = Ok fps ->
  0 <= fps ->
  len audio < segment_size self ->
  exists mel' audio',
    segment_pair self mel audio g = Ok (mel', audio', g)
    /\ frames mel'
       = (if size2 mel <=? fps
          then frames mel
               ++ repeat (repeat zero (bins mel)) (Z.to_nat (fps - size2 mel))
          else firstn (Z.to_nat fps) (frames mel))
    /\ size2 mel' = fps
    /\ bins mel' = bins mel
    /\ audio' = audio ++ repeat zero (Z.to_nat (segment_size self - len audio))
    /\ len audio' = segment_size self.
Proof.
  intros Hsplit Hfps Hfps0 Hlen. unfold Dataset.segment_pair.
  rewrite Hsplit, Hfps. step_bind.
  destruct (Z.leb_spec (segment_size self) (len audio)); [lia |].
  eexists _, _. split; [reflexivity |].
  split; [| split; [| split; [reflexivity | split]]].
  - unfold size2, mel_pad_right, pad_right. cbn [frames].
    destruct (Z.leb_spec 0 (fps - Z.of_nat (length (frames mel))));
      destruct (Z.leb_spec (Z.of_nat (length (frames mel))) fps);
      try lia; [reflexivity |].
    f_equal. lia.
  - unfold size2, mel_pad_right, pad_right. cbn [frames].
    destruct (Z.leb_spec 0 (fps - Z.of_nat (length (frames mel)))).
    + rewrite length_app, repeat_length. lia.
    + rewrite length_take. lia.
  - apply pad_right_app. lia.
  - unfold len in *. rewrite length_pad_right; lia.
Qed.

(** An index outside [-N .. N-1] raises [IndexError] before the cache
    or the disk is touched. *)
Theorem index_out_of_range self d h c index g files :
  files_of self h = Ok files ->
  index < - Z.of_nat (length files) \/ Z.of_nat (length files) <= index ->
  getitem self d h c index g = Raise IndexError.
Proof.
  intros Hfiles Hidx. unfold Dataset.getitem. rewrite Hfiles. step_bind.
  unfold Py.getitem. cbv zeta.
  destruct (Z.ltb_spec index 0).
  - destruct (Z.ltb_spec (index + Z.of_nat (length files)) 0); [reflexivity | lia].
  - destruct (Z.ltb_spec index 0); [lia |].
    destruct (Z.leb_spec (Z.of_nat (length files)) index); [reflexivity | lia].
Qed.

(** A negative index counts from the end: [-1] is the last file. *)
Theorem negative_index_from_end self d h c index g files :
  files_of self h = Ok files ->
  - Z.of_nat (length files) <= index < 0 ->
  getitem self d h c index g
  = getitem self d h c (index + Z.of_nat (length files)) g.
Proof.
  intros Hfiles Hidx. unfold Dataset.getitem. rewrite Hfiles. step_bind.
  f_equal. unfold Py.getitem. cbv zeta.
  destruct (Z.ltb_spec index 0); [| lia].
  destruct (Z.ltb_spec (index + Z.of_nat (length files)) 0); [lia |].
  cbv iota.
  destruct (Z.ltb_spec (index + Z.of_nat (length files)) 0); [lia |].
  reflexivity.
Qed.

Variable MelSpectrogram : mel_params -> list sample -> mel_tensor sample.
Variable seed : Z -> rng.

(** The constructor does not change how many files there are: [len] of
    the dataset is the length of the list it was given, shuffled or
    not. *)
Theorem len_after_init a h g self c h' g' files :
  init MelSpectrogram seed a h g = Ok (self, c, h', g') ->
  h !! a_training_files a = Some files ->
  dataset_len self h' = Ok (Z.of_nat (length files)).
Proof.
  intros Hinit Hfiles. unfold Dataset.init in Hinit. rewrite Hfiles in Hinit.
  pose proof (shuffle_length files (seed 1234)) as Hlen.
  destruct (shuffle files (seed 1234)) as [files' gs]. cbn [fst] in Hlen.
  destruct (a_shuffle a); step_bind in Hinit;
    (destruct (half_overlap (a_n_fft a) (a_hop_size a)); [| discriminate]);
    step_bind in Hinit; inversion Hinit; subst; clear Hinit;
    unfold dataset_len, files_of; cbn [audio_files].
  - rewrite lookup_insert_eq. step_bind. now rewrite Hlen.
  - rewrite Hfiles. reflexivity.
Qed.

End WithSignal.
End LoaderFacts.

(** ** Paths of the stored mels and of the generated files *)

Module PathFacts.
Import Dataset Corpus Inference StringFacts.

Lemma basename_aux_no_slash cs acc :
  forallb (fun c => negb (Ascii.eqb c "/"%char)) cs = true ->
  basename_aux cs acc = acc ++ cs.
Proof.
  revert acc. induction cs as [| c rest IH]; intros acc H; cbn [basename_aux].
  - now rewrite app_nil_r.
  - cbn [forallb] in H. apply andb_prop in H as [Hc Hrest].
    destruct (Ascii.eqb c "/"%char); [discriminate |].
    rewrite IH by exact Hrest. now rewrite <- app_assoc.
Qed.

Lemma basename_aux_after_slash cs ns acc :
  basename_aux (cs ++ "/"%char :: ns) acc = basename_aux ns [].
Proof.
  revert acc. induction cs as [| c rest IH]; intros acc; cbn [basename_aux app].
  - reflexivity.
  - destruct (Ascii.eqb c "/"%char); apply IH.
Qed.

(** The base name of [dir/name] is [name], whatever [dir] is. *)
Lemma basename_of_join dir name :
  forallb (fun c => negb (Ascii.eqb c "/"%char)) (list_ascii_of_string name) = true ->
  basename (dir ++ "/" ++ name) = name.
Proof.
  intros H. unfold basename.
  rewrite !list_ascii_of_append. cbn [list_ascii_of_string app].
  rewrite basename_aux_after_slash, basename_aux_no_slash by exact H.
  cbn [app]. apply string_of_list_ascii_of_string.
Qed.

Lemma split_at_dot_ext ext_rev rest :
  forallb (fun c => negb (Ascii.eqb c "."%char)) ext_rev = true ->
  split_at_dot (ext_rev ++ "."%char :: rest) = Some rest.
Proof.
  induction ext_rev as [| c r IH]; intros H; cbn [split_at_dot app].
  - reflexivity.
  - cbn [forallb] in H. apply andb_prop in H as [Hc Hr].
    destruct (Ascii.eqb c "."%char); [discriminate | now apply IH].
Qed.

(** [splitext] removes the last extension and nothing more. *)
Lemma splitext_root_ext stem ext :
  existsb (fun c => negb (Ascii.eqb c "."%char)) (list_ascii_of_string stem) = true ->
  forallb (fun c => negb (Ascii.eqb c "."%char)) (list_ascii_of_string ext) = true ->
  splitext_root (stem ++ "." ++ ext) = stem.
Proof.
  intros Hstem Hext. unfold splitext_root.
  rewrite !list_ascii_of_append. cbn [list_ascii_of_string app].
  rewrite rev_app_distr. cbn [rev]. rewrite <- app_assoc. cbn [app].
  rewrite split_at_dot_ext.
  - assert (Hex : existsb (fun c => negb (Ascii.eqb c "."%char))
                          (rev (list_ascii_of_string stem)) = true).
    { apply existsb_exists in Hstem as (c & Hin & Hc).
      apply existsb_exists. exists c. split; [| exact Hc].
      now apply in_rev in Hin. }
    rewrite Hex, rev_involutive. apply string_of_list_ascii_of_string.
  - rewrite forallb_forall in *. intros c Hin. apply Hext.
    now apply in_rev.
Qed.

Section WithSignal.
Variable sample : Type.

(** The stored mel of an audio file is looked up by the file's stem
    alone: [dir/stem.ext] maps to [base_mels_path/stem.npy] for every
    directory [dir] and every extension, so files of the same name in
    different class directories share one mel file. *)
Theorem mel_path_of_file (self : MelDataset sample) dir stem ext :
  forallb (fun c => negb (Ascii.eqb c "/"%char)) (list_ascii_of_string stem) = true ->
  existsb (fun c => negb (Ascii.eqb c "."%char)) (list_ascii_of_string stem) = true ->
  forallb (fun c => negb (Ascii.eqb c "/"%char) && negb (Ascii.eqb c "."%char))
          (list_ascii_of_string ext) = true ->
  mel_path self (dir ++ "/" ++ stem ++ "." ++ ext)
  = os_path_join (base_mels_path self) (stem ++ ".npy").
Proof.
  intros Hslash Hdot Hext. unfold mel_path.
  assert (Hext1 : forallb (fun c => negb (Ascii.eqb c "/"%char))
                          (list_ascii_of_string ext) = true).
  { rewrite forallb_forall in *. intros c Hin.
    apply Hext in Hin. now apply andb_prop in Hin as [? _]. }
  assert (Hext2 : forallb (fun c => negb (Ascii.eqb c "."%char))
                          (list_ascii_of_string ext) = true).
  { rewrite forallb_forall in *. intros c Hin.
    apply Hext in Hin. now apply andb_prop in Hin as [_ ?]. }
  rewrite basename_of_join.
  - now rewrite splitext_root_ext.
  - rewrite !list_ascii_of_append. cbn [list_ascii_of_string app].
    rewrite forallb_app. cbn [forallb]. now rewrite Hslash, Hext1.
Qed.
End WithSignal.

(** The generated file is named after the stem of the input: inputs
    that differ only in their extension are written to the same
    file. *)
Theorem output_file_of_stem output_dir stem ext :
  existsb (fun c => negb (Ascii.eqb c "."%char)) (list_ascii_of_string stem) = true ->
  forallb (fun c => negb (Ascii.eqb c "."%char)) (list_ascii_of_string ext) = true ->
  output_file output_dir (stem ++ "." ++ ext)
  = os_path_join output_dir (stem ++ "_generated.wav").
Proof.
  intros Hstem Hext. unfold output_file. now rewrite splitext_root_ext.
Qed.

End PathFacts.

(** ** The inference driver *)

Module InferenceFacts.
Import Random Dataset Inference SliceFacts RandomFacts.

Section WithSignal.
Variable sample : Type.

End WithSignal.

(** *** The newest checkpoint *)

Lemma ascii_compare_trans_lt a b c :
  Ascii.compare a b = Lt -> Ascii.compare b c = Lt -> Ascii.compare a c = Lt.
Proof.
  unfold Ascii.compare. rewrite !N.compare_lt_iff. lia.
Qed.

Lemma string_compare_refl s : String.compare s s = Eq.
Proof.
  induction s as [| c s IH]; cbn [String.compare]; [reflexivity |].
  unfold Ascii.compare. now rewrite N.compare_refl.
Qed.

Lemma string_compare_trans_lt s1 s2 s3 :
  String.compare s1 s2 = Lt -> String.compare s2 s3 = Lt ->
  String.compare s1 s3 = Lt.
Proof.
  revert s2 s3. induction s1 as [| c1 s1 IH]; intros [| c2 s2] [| c3 s3];
    cbn [String.compare]; try easy.
  destruct (Ascii.compare c1 c2) eqn:H12; try discriminate;
    destruct (Ascii.compare c2 c3) eqn:H23; try discriminate; intros Ha Hb.
  - apply Ascii.compare_eq_iff in H12, H23. subst.
    unfold Ascii.compare. rewrite N.compare_refl. now apply (IH s2).
  - apply Ascii.compare_eq_iff in H12. subst. now rewrite H23.
  - apply Ascii.compare_eq_iff in H23. subst. now rewrite H12.
  - now rewrite (ascii_compare_trans_lt c1 c2 c3).
Qed.

Lemma string_leb_trans s1 s2 s3 :
  String.leb s1 s2 = true -> String.leb s2 s3 = true -> String.leb s1 s3 = true.
Proof.
  unfold String.leb.
  destruct (String.compare s1 s2) eqn:H12; try discriminate;
    destruct (String.compare s2 s3) eqn:H23; try discriminate; intros _ _.
  - apply String.compare_eq_iff in H12, H23. subst.
    now rewrite string_compare_refl.
  - apply String.compare_eq_iff in H12. subst. now rewrite H23.
  - apply String.compare_eq_iff in H23. subst. now rewrite H12.
  - now rewrite (string_compare_trans_lt s1 s2 s3).
Qed.

Lemma insert_sorted_In x y l :
  In y (insert_sorted x l) <-> y = x \/ In y l.
Proof.
  induction l as [| z rest IH]; cbn [insert_sorted].
  - cbn. intuition.
  - destruct (String.leb x z); cbn [In]; [intuition |].
    rewrite IH. intuition.
Qed.

Lemma sorted_In y l : In y (sorted l) <-> In y l.
Proof.
  induction l as [| x rest IH]; [reflexivity |].
  cbn [sorted fold_right]. fold (sorted rest).
  rewrite insert_sorted_In, IH. cbn [In]. intuition.
Qed.

Lemma string_leb_refl s : String.leb s s = true.
Proof. unfold String.leb. now rewrite string_compare_refl. Qed.

Lemma insert_sorted_sorted x l :
  StronglySorted (fun a b => String.leb a b = true) l ->
  StronglySorted (fun a b => String.leb a b = true) (insert_sorted x l).
Proof.
  intros Hs. induction Hs as [| z rest Hrest IH Hall]; cbn [insert_sorted].
  - constructor; constructor.
  - destruct (String.leb x z) eqn:Hxz.
    + constructor; [constructor; assumption |].
      constructor; [exact Hxz |].
      eapply Forall_impl; [exact Hall |].
      intros r Hr. cbn beta in *. eapply string_leb_trans; eassumption.
    + constructor; [exact IH |].
      apply List.Forall_forall. intros y Hy.
      apply insert_sorted_In in Hy as [-> | Hy].
      * destruct (String.leb_total x z) as [H | H]; [congruence | exact H].
      * rewrite List.Forall_forall in Hall. now apply Hall.
Qed.

Lemma sorted_sorted l :
  StronglySorted (fun a b => String.leb a b = true) (sorted l).
Proof.
  induction l as [| x rest IH]; [constructor |].
  cbn [sorted fold_right]. now apply insert_sorted_sorted.
Qed.

Lemma last_In (l : list string) d : l <> [] -> In (List.last l d) l.
Proof.
  induction l as [| a [| b rest] IH]; intros H; [contradiction | now left |].
  right. apply IH. discriminate.
Qed.

Lemma last_is_greatest l d x :
  StronglySorted (fun a b => String.leb a b = true) l ->
  In x l -> String.leb x (List.last l d) = true.
Proof.
  intros Hs. revert x. induction Hs as [| a rest Hrest IH Hall]; intros x Hx.
  - destruct Hx.
  - destruct rest as [| b rest'].
    + destruct Hx as [-> | []]. apply string_leb_refl.
    + change (List.last (a :: b :: rest') d) with (List.last (b :: rest') d).
      destruct Hx as [-> | Hx]; [| now apply IH].
      rewrite List.Forall_forall in Hall. apply Hall.
      apply last_In. discriminate.
Qed.

(** [scan_checkpoint] answers the empty string when nothing matches
    the pattern, and otherwise one of the matching paths that no other
    matching path follows in the order of their characters. *)
Theorem scan_checkpoint_newest glob cp_dir prefix :
  let cp_list := glob (Corpus.os_path_join cp_dir (prefix ++ "*")%string) in
  (cp_list = [] -> scan_checkpoint glob cp_dir prefix = ""%string)
  /\ (cp_list <> [] ->
      In (scan_checkpoint glob cp_dir prefix) cp_list
      /\ forall x, In x cp_list ->
                   String.leb x (scan_checkpoint glob cp_dir prefix) = true).
Proof.
  intros cp_list. unfold scan_checkpoint. fold cp_list. split.
  - intros ->. reflexivity.
  - intros Hne.
    destruct (Z.eqb_spec (Z.of_nat (length cp_list)) 0) as [Hz | _].
    { destruct cp_list; [contradiction | cbn in Hz; lia]. }
    split.
    + apply sorted_In. apply last_In.
      intros Hnil. destruct cp_list as [| c rest]; [contradiction |].
      assert (Hin : In c (sorted (c :: rest))) by (apply sorted_In; now left).
      rewrite Hnil in Hin. destruct Hin.
    + intros x Hx. apply last_is_greatest; [apply sorted_sorted |].
      now apply sorted_In.
Qed.

End InferenceFacts.

(** ** Cache keys and the sign of the dataset's mel *)

Module KeyFacts.
Import Dataset Spectral CacheFacts StringFacts.

Lemma to_int_round_trip z :
  NilZero.int_of_string (NilZero.string_of_int (Z.to_int z)) = Some (Z.to_int z).
Proof.
  apply NilZero.isi; destruct z; cbn [Z.to_int]; try discriminate;
    intros H; inversion H as [Hp];
    now apply Unsigned.to_uint_nonnil in Hp.
Qed.

(** [str] tells apart any two values [fmax] can take. *)
Lemma str_of_fmax_inj f1 f2 : str_of_fmax f1 = str_of_fmax f2 -> f1 = f2.
Proof.
  destruct f1 as [z1 |], f2 as [z2 |]; cbn [str_of_fmax]; intros H.
  - apply (f_equal NilZero.int_of_string) in H.
    rewrite !to_int_round_trip in H. inversion H as [Hz].
    now apply DecimalZ.to_int_inj in Hz as ->.
  - apply (f_equal NilZero.int_of_string) in H.
    rewrite to_int_round_trip in H. discriminate.
  - apply (f_equal NilZero.int_of_string) in H.
    rewrite to_int_round_trip in H. discriminate.
  - reflexivity.
Qed.

Section WithLibraries.
Variable torch_hann_window : Z -> list R.
Variable librosa_mel_fn : Z -> Z -> Z -> Z -> option Z -> list (list R).

Abbreviation refresh_caches :=
  (refresh_caches torch_hann_window librosa_mel_fn).

(** Calls with different [fmax] on one device store their bases under
    different keys: after a call with [fmax1] and then a call with
    [fmax2], both bases are in the cache, each the one
    [librosa_mel_fn] gives for its own call. *)
Theorem distinct_fmax_entries st device
        n_fft1 num_mels1 sr1 win1 fmin1 fmax1
        n_fft2 num_mels2 sr2 win2 fmin2 fmax2 :
  fmax1 <> fmax2 ->
  let st2 := refresh_caches
               (refresh_caches st device n_fft1 num_mels1 sr1 win1 fmin1 fmax1)
               device n_fft2 num_mels2 sr2 win2 fmin2 fmax2 in
  mel_basis st2 !! (str_of_fmax fmax1 ++ "_" ++ device)%string
  = Some (librosa_mel_fn sr1 n_fft1 num_mels1 fmin1 fmax1)
  /\ mel_basis st2 !! (str_of_fmax fmax2 ++ "_" ++ device)%string
     = Some (librosa_mel_fn sr2 n_fft2 num_mels2 fmin2 fmax2).
Proof.
  intros Hne st2. subst st2. rewrite !refresh_caches_always.
  cbn [mel_basis]. split.
  - rewrite lookup_insert_ne, lookup_insert_eq; [reflexivity |].
    intros Hkey. apply append_cancel_r, str_of_fmax_inj in Hkey. congruence.
  - now rewrite lookup_insert_eq.
Qed.

(** Calls that differ in sampling rate, [n_fft] or number of mels but
    not in [fmax] and device share one key: the later basis replaces
    the earlier. *)
Theorem same_fmax_one_entry st device fmax
        n_fft1 num_mels1 sr1 win1 fmin1
        n_fft2 num_mels2 sr2 win2 fmin2 :
  let st1 := refresh_caches st device n_fft1 num_mels1 sr1 win1 fmin1 fmax in
  let st2 := refresh_caches st1 device n_fft2 num_mels2 sr2 win2 fmin2 fmax in
  mel_basis st2 = <[(str_of_fmax fmax ++ "_" ++ device)%string
                    := librosa_mel_fn sr2 n_fft2 num_mels2 fmin2 fmax]> (mel_basis st)
  /\ hann_window st2 = <[device := torch_hann_window win2]> (hann_window st).
Proof.
  intros st1 st2. subst st1 st2. rewrite !refresh_caches_always.
  cbn [mel_basis hann_window]. now rewrite !insert_insert_eq.
Qed.
End WithLibraries.

Local Open Scope R_scope.

Lemma dot_nonneg a b :
  Forall (fun x => 0 <= x) a -> Forall (fun x => 0 <= x) b -> 0 <= dot a b.
Proof.
  intros Ha. revert b. induction Ha as [| x a Hx Ha IH]; intros b Hb;
    cbn [dot]; [lra |].
  destruct Hb as [| y b Hy Hb]; [lra |].
  specialize (IH b Hb). nra.
Qed.

Lemma cabs_nonneg c : 0 <= cabs c.
Proof. unfold cabs. apply sqrt_pos. Qed.

Section WithTransform.
Variable stft : Z -> Z -> Z -> list R -> bool -> list R -> list (list complex).
Variable torch_hann_window : Z -> list R.
Variable melscale_fbanks : mel_params -> list (list R).

(** With a filterbank of non-negative weights, no cell of the mel the
    dataset's transform returns is negative, whatever the waveform and
    the power. *)
Theorem transform_cells_nonneg mp waveform :
  Forall (Forall (fun w => 0 <= w)) (melscale_fbanks mp) ->
  Forall (Forall (fun x => 0 <= x))
         (frames (MelSpectrogram stft torch_hann_window melscale_fbanks mp waveform)).
Proof.
  intros Hfb. unfold MelSpectrogram, project. cbn [frames].
  assert (Hspec : Forall (Forall (fun x => 0 <= x))
                         (spectrogram stft torch_hann_window mp waveform)).
  { unfold spectrogram. destruct (mp_power mp =? 1)%Z.
    - rewrite Forall_map. apply Forall_true. intros fr.
      rewrite Forall_map. apply Forall_true. intros c. apply cabs_nonneg.
    - rewrite Forall_map. apply Forall_true. intros fr.
      rewrite Forall_map. apply Forall_true. intros c.
      apply pow_le, cabs_nonneg. }
  rewrite Forall_map.
  eapply Forall_impl; [exact Hspec |]. intros frame Hframe. cbn beta.
  rewrite Forall_map.
  eapply Forall_impl; [exact Hfb |]. intros filter Hfilter. cbn beta.
  now apply dot_nonneg.
Qed.
End WithTransform.

End KeyFacts.

(** ** Exact binary64 results: whole fractions and the half overlap *)

Module FloatExact.
Import FloatFacts.

Lemma shr_1_even x :
  shr_r x = false -> shr_s x = false -> 0 <= shr_m x -> (2 | shr_m x) ->
  shr_r (shr_1 x) = false /\ shr_s (shr_1 x) = false.
Proof.
  destruct x as [m r s]. cbn [shr_r shr_s shr_m]. intros -> -> Hm [k Hk].
  destruct m as [| [p | p |] | p]; cbn [shr_1 shr_r shr_s orb]; try easy; lia.
Qed.

Lemma divide_pow2_split m a b :
  0 <= a -> 0 <= b -> (2 ^ (a + b) | m) ->
  (2 ^ a | m) /\ (2 ^ b | m / 2 ^ a).
Proof.
  intros Ha Hb [k Hk]. rewrite Z.pow_add_r in Hk by lia.
  assert (0 < 2 ^ a) by (apply Z.pow_pos_nonneg; lia).
  split.
  - exists (k * 2 ^ b). lia.
  - exists k. subst m.
    replace (k * (2 ^ a * 2 ^ b)) with (k * 2 ^ b * 2 ^ a) by ring.
    rewrite Z.div_mul by lia. reflexivity.
Qed.

Lemma iter_pos_shr_exact p x :
  shr_r x = false -> shr_s x = false -> 0 <= shr_m x ->
  (2 ^ Zpos p | shr_m x) ->
  shr_r (SpecFloat.iter_pos shr_1 p x) = false
  /\ shr_s (SpecFloat.iter_pos shr_1 p x) = false.
Proof.
  revert x. induction p as [p IH | p IH |]; intros x Hr Hs Hm Hd;
    simpl SpecFloat.iter_pos.
  - replace (Zpos p~1) with (1 + (Zpos p + Zpos p)) in Hd by lia.
    apply divide_pow2_split in Hd as [Hd1 Hd2]; [| lia | lia].
    apply divide_pow2_split in Hd2 as [Hd2 Hd3]; [| lia | lia].
    change (2 ^ 1) with 2 in *.
    destruct (shr_1_even x Hr Hs Hm Hd1) as [Hr1 Hs1].
    assert (Hm1 : shr_m (shr_1 x) = shr_m x / 2) by now apply shr_1_m.
    assert (Hp1 : 0 <= shr_m (shr_1 x)) by (rewrite Hm1; apply Z.div_pos; lia).
    rewrite <- Hm1 in Hd2, Hd3.
    destruct (IH (shr_1 x) Hr1 Hs1 Hp1 Hd2) as [Hr2 Hs2].
    apply IH; try assumption.
    + rewrite iter_pos_shr_m by assumption. apply Z.div_pos; lia.
    + now rewrite iter_pos_shr_m by assumption.
  - replace (Zpos p~0) with (Zpos p + Zpos p) in Hd by lia.
    apply divide_pow2_split in Hd as [Hd1 Hd2]; [| lia | lia].
    destruct (IH x Hr Hs Hm Hd1) as [Hr2 Hs2].
    apply IH; try assumption.
    + rewrite iter_pos_shr_m by assumption. apply Z.div_pos; lia.
    + now rewrite iter_pos_shr_m by assumption.
  - change (2 ^ 1) with 2 in Hd. now apply shr_1_even.
Qed.

(** Rounding a mantissa whose dropped bits are all zero loses
    nothing. *)
Lemma binary_round_aux_exact s M e D :
  Zdigits2 (Zpos M) = D -> 53 <= D ->
  (2 ^ (D - 53) | Zpos M) ->
  -1074 <= D + e - 53 <= 971 ->
  exists m,
    binary_round_aux PyFloat.prec PyFloat.emax s (Zpos M) e loc_Exact
    = S754_finite s m (e + (D - 53))
    /\ Zpos m = Zpos M / 2 ^ (D - 53)
    /\ Zdigits2 (Zpos m) = 53.
Proof.
  intros HD H53 Hdiv He.
  pose proof (Zdigits2_bounds M) as HM. rewrite HD in HM.
  pose proof (mantissa_after_shift (Zpos M) D H53 HM) as Hm1.
  destruct (Zpos M / 2 ^ (D - 53)) as [| m |] eqn:Hq; [lia | | lia].
  assert (Hdm : Zdigits2 (Zpos m) = 53) by (apply Zdigits2_unique; lia).
  exists m. split; [| split; [reflexivity | exact Hdm]].
  destruct (Z.eq_dec D 53) as [-> | Hne].
  - replace (e + (53 - 53)) with e by lia.
    change (2 ^ (53 - 53)) with 1 in Hq. rewrite Z.div_1_r in Hq.
    inversion Hq; subst. apply binary_round_aux_canonical; [exact HD | lia].
  - unfold binary_round_aux, shr_fexp. rewrite HD, fexp_normal by lia.
    replace (D + e - 53 - e) with (D - 53) by lia.
    destruct (D - 53) as [| n | n] eqn:Hn; [lia | | lia].
    cbn [shr shr_record_of_loc].
    set (x := {| shr_m := Zpos M; shr_r := false; shr_s := false |}).
    destruct (iter_pos_shr_exact n x) as [Hr Hs]; try reflexivity;
      [cbn; lia | exact Hdiv |].
    pose proof (iter_pos_shr_m n x) as Hm. cbn [shr_m x] in Hm.
    specialize (Hm ltac:(lia)). fold x in Hm.
    destruct (SpecFloat.iter_pos shr_1 n x) as [m' r' s'].
    cbn [shr_r shr_s shr_m] in *. subst r' s'. rewrite Hm, Hq.
    cbn [loc_of_shr_record round_nearest_even].
    rewrite Hdm, fexp_normal by lia.
    replace (53 + (e + Zpos n) - 53 - (e + Zpos n)) with 0 by lia.
    cbn [shr shr_record_of_loc shr_m].
    unfold PyFloat.emax, PyFloat.prec.
    destruct (Z.leb_spec (e + Zpos n) (1024 - 53)); [reflexivity | lia].
Qed.

(** [float(n)] for a positive [n] of at most 53 bits, with either
    sign. *)
Lemma binary_round_int s p :
  let d := Zdigits2 (Zpos p) in
  d <= 53 ->
  exists mz, binary_round PyFloat.prec PyFloat.emax s p 0
             = S754_finite s mz (d - 53)
             /\ Zpos mz = Zpos p * 2 ^ (53 - d)
             /\ Zdigits2 (Zpos mz) = 53.
Proof.
  intros d Hd.
  pose proof (Zdigits2_bounds p) as Hp. fold d in Hp.
  assert (0 < d).
  { destruct (Z.lt_ge_cases 0 d); [easy |].
    assert (2 ^ d <= 2 ^ 0) by (apply Z.pow_le_mono_r; lia). simpl in *. lia. }
  unfold binary_round.
  change (Zpos (digits2_pos p)) with d.
  rewrite Z.add_0_r, fexp_normal by lia.
  destruct (shl_align_spec p 0 (d - 53)) as (mz & Hal & Hmz); [lia |].
  rewrite Hal. replace (0 - (d - 53)) with (53 - d) in Hmz by lia.
  assert (Hdz : Zdigits2 (Zpos mz) = 53).
  { apply Zdigits2_unique. rewrite Hmz. split.
    - replace (53 - 1) with ((d - 1) + (53 - d)) by lia.
      rewrite Z.pow_add_r by lia. apply Z.mul_le_mono_nonneg_r; [| lia].
      apply Z.pow_nonneg; lia.
    - replace 53 with (d + (53 - d)) at 2 by lia.
      rewrite Z.pow_add_r by lia. apply Z.mul_lt_mono_pos_r; [| lia].
      apply Z.pow_pos_nonneg; lia. }
  exists mz. split; [| split; [exact Hmz | exact Hdz]].
  apply binary_round_aux_canonical; [exact Hdz | lia].
Qed.

Lemma digits_le_53 p : Zpos p < 2 ^ 53 -> Zdigits2 (Zpos p) <= 53.
Proof.
  intros H. pose proof (Zdigits2_bounds p) as Hb.
  destruct (Z.lt_ge_cases 53 (Zdigits2 (Zpos p))) as [Hlt |]; [| lia].
  assert (2 ^ 53 <= 2 ^ (Zdigits2 (Zpos p) - 1))
    by (apply Z.pow_le_mono_r; lia). lia.
Qed.

Lemma digits_pos p : 0 < Zdigits2 (Zpos p).
Proof. unfold Zdigits2. lia. Qed.

(** [int(float(n))] is [n]. *)
Lemma to_int_of_int n :
  0 <= n < 2 ^ 53 -> PyFloat.to_int (PyFloat.of_int n) = Ok n.
Proof.
  intros Hn. destruct n as [| p | p]; [reflexivity | | lia].
  destruct (binary_round_int false p) as (mz & Hof & Hmz & _);
    [apply digits_le_53; lia |].
  unfold PyFloat.of_int, binary_normalize. rewrite Hof.
  unfold PyFloat.to_int, PyFloat.signed, PyFloat.int_part.
  pose proof (digits_le_53 p ltac:(lia)) as Hd.
  pose proof (digits_pos p) as Hd0.
  f_equal. destruct (Z.leb_spec 0 (Zdigits2 (Zpos p) - 53)).
  - assert (Heq : Zdigits2 (Zpos p) = 53) by lia.
    rewrite Heq in *. change (53 - 53) with 0 in *.
    rewrite Z.shiftl_0_r, Hmz. lia.
  - rewrite Z.shiftr_div_pow2 by lia. rewrite Hmz.
    replace (- (Zdigits2 (Zpos p) - 53)) with (53 - Zdigits2 (Zpos p)) by lia.
    apply Z.div_mul. apply Z.pow_nonzero; lia.
Qed.

(** [n * 1.0] is [float(n)]. *)
Lemma mul_one_exact n :
  0 <= n < 2 ^ 53 ->
  PyFloat.mul (PyFloat.of_int n) PyFloat.one = PyFloat.of_int n.
Proof.
  intros Hn. destruct n as [| p | p]; [reflexivity | | lia].
  destruct (binary_round_int false p) as (mz & Hof & Hmz & Hdz);
    [apply digits_le_53; lia |].
  pose proof (digits_le_53 p ltac:(lia)) as Hd.
  pose proof (digits_pos p) as Hd0.
  unfold PyFloat.of_int, binary_normalize. rewrite Hof.
  change PyFloat.one with (S754_finite false 4503599627370496 (-52)).
  unfold PyFloat.mul, SFmul. cbn [xorb].
  pose proof (Zdigits2_bounds mz) as HX. rewrite Hdz in HX.
  assert (HM : Zpos (mz * 4503599627370496) = Zpos mz * 2 ^ 52)
    by (rewrite Pos2Z.inj_mul; reflexivity).
  destruct (binary_round_aux_exact false (mz * 4503599627370496)
              (Zdigits2 (Zpos p) - 53 + -52) 105)
    as (m & Hr & Hm & _).
  - apply Zdigits2_unique. rewrite HM.
    change (2 ^ (105 - 1)) with (2 ^ 52 * 2 ^ 52).
    change (2 ^ 105) with (2 ^ 53 * 2 ^ 52). lia.
  - lia.
  - rewrite HM. change (105 - 53) with 52. exists (Zpos mz). reflexivity.
  - lia.
  - rewrite Hr. rewrite HM in Hm. change (105 - 53) with 52 in Hm.
    rewrite Z.div_mul in Hm by lia. inversion Hm; subst.
    f_equal. lia.
Qed.

End FloatExact.

(** ** Whole validation fractions and the half overlap *)

Module EdgeFacts.
Import Random Corpus Split Dataset SliceFacts RandomFacts FloatFacts FloatExact.

(** [int(n * (1 - 0.0))] is [n]. *)
Lemma split_point_zero n :
  0 <= n < 2 ^ 53 -> split_point n (S754_zero false) = Ok n.
Proof.
  intros Hn. unfold split_point.
  change (PyFloat.sub PyFloat.one (S754_zero false)) with PyFloat.one.
  rewrite mul_one_exact by exact Hn. now apply to_int_of_int.
Qed.

(** [int(n * (1 - 1.0))] is [0]. *)
Lemma split_point_one n :
  0 <= n < 2 ^ 53 -> split_point n PyFloat.one = Ok 0.
Proof.
  intros Hn. unfold split_point.
  change (PyFloat.sub PyFloat.one PyFloat.one) with (S754_zero false).
  destruct n as [| p | p]; [reflexivity | | lia].
  destruct (binary_round_int false p) as (mz & Hof & _);
    [apply digits_le_53; lia |].
  unfold PyFloat.of_int, binary_normalize. rewrite Hof. reflexivity.
Qed.

Section WithDisk.
Variable fs : filesystem.

(** With [num_validation = 0.0] every file found goes to training and
    the validation list is empty. *)
Theorem no_validation_fraction h g filelist :
  extract_all fs (base_pth h) (cls_pth h) None = Ok (Some filelist) ->
  num_validation h = S754_zero false ->
  Z.of_nat (length filelist) < 2 ^ 53 ->
  exists shuffled g',
    get_dataset_filelist fs h g = Ok (shuffled, [], shuffled, g')
    /\ Permutation filelist shuffled.
Proof.
  intros Hidx Hnv HN. unfold get_dataset_filelist, shuffle_and_split.
  rewrite Hidx, Hnv. cbn [mbind result_bind Py.bind].
  pose proof (shuffle_perm filelist g) as Hperm.
  pose proof (shuffle_length filelist g) as Hlen.
  destruct (shuffle filelist g) as [shuffled g']. cbn [fst] in Hperm, Hlen.
  rewrite split_point_zero by lia. cbn [mbind result_bind Py.bind].
  exists shuffled, g'. split; [| exact Hperm].
  unfold slice_to, slice_from. rewrite clamp_index_inside by lia.
  rewrite Nat2Z.id, firstn_all, drop_all. reflexivity.
Qed.

(** With [num_validation = 1.0] the training list is empty and every
    file found goes to validation. *)
Theorem whole_validation_fraction h g filelist :
  extract_all fs (base_pth h) (cls_pth h) None = Ok (Some filelist) ->
  num_validation h = PyFloat.one ->
  Z.of_nat (length filelist) < 2 ^ 53 ->
  exists shuffled g',
    get_dataset_filelist fs h g = Ok ([], shuffled, shuffled, g')
    /\ Permutation filelist shuffled.
Proof.
  intros Hidx Hnv HN. unfold get_dataset_filelist, shuffle_and_split.
  rewrite Hidx, Hnv. cbn [mbind result_bind Py.bind].
  pose proof (shuffle_perm filelist g) as Hperm.
  pose proof (shuffle_length filelist g) as Hlen.
  destruct (shuffle filelist g) as [shuffled g']. cbn [fst] in Hperm, Hlen.
  rewrite split_point_one by lia. cbn [mbind result_bind Py.bind].
  exists shuffled, g'. split; [| exact Hperm].
  unfold slice_to, slice_from. rewrite clamp_index_inside by lia.
  reflexivity.
Qed.
End WithDisk.

(** Halving a double of 53 bits by the double 2.0. *)
Lemma div_two_exact s mz e :
  Zdigits2 (Zpos mz) = 53 -> -1000 <= e <= 900 ->
  SFdiv PyFloat.prec PyFloat.emax (S754_finite s mz e)
        (S754_finite false 4503599627370496 (-51))
  = S754_finite s mz (e - 1).
Proof.
  intros Hdz He. unfold SFdiv, SFdiv_core_binary.
  rewrite Hdz. change (Zdigits2 (Zpos 4503599627370496)) with 53.
  rewrite fexp_normal by lia.
  replace (Z.min (53 + e - (53 + -51) - 53) (e - -51)) with (e - 2) by lia.
  replace (e - -51 - (e - 2)) with 53 by lia.
  rewrite Z.shiftl_mul_pow2 by lia.
  pose proof (Z_div_mod (Zpos mz * 2 ^ 53) (Zpos 4503599627370496) eq_refl)
    as Hdm.
  destruct (Z.div_eucl (Zpos mz * 2 ^ 53) (Zpos 4503599627370496)) as [q r].
  destruct Hdm as [Hdm Hr].
  assert (Hq : q = Zpos mz~0) by lia.
  assert (Hr0 : r = 0) by lia.
  subst q r.
  change (new_location (Zpos 4503599627370496) 0) with loc_Exact.
  rewrite xorb_false_r.
  pose proof (Zdigits2_bounds mz) as Hb. rewrite Hdz in Hb.
  destruct (binary_round_aux_exact s (mz~0) (e - 2) 54)
    as (m & Hres & Hm & _).
  - apply Zdigits2_unique.
    change (2 ^ (54 - 1)) with (2 * 2 ^ 52). change (2 ^ 54) with (2 * 2 ^ 53).
    lia.
  - lia.
  - exists (Zpos mz). change (2 ^ (54 - 53)) with 2. lia.
  - lia.
  - rewrite Hres. change (2 ^ (54 - 53)) with 2 in Hm.
    assert (Zpos m = Zpos mz).
    { rewrite Hm. symmetry. apply (Z.div_unique _ 2 _ 0); lia. }
    f_equal; lia.
Qed.

(** The margin [int((n_fft - hop_size) / 2)] is half the difference,
    rounded towards zero: the detour through a double loses nothing. *)
Theorem half_overlap_exact n_fft hop_size :
  - 2 ^ 53 < n_fft - hop_size < 2 ^ 53 ->
  half_overlap n_fft hop_size = Ok (Z.quot (n_fft - hop_size) 2).
Proof.
  intros Hz. unfold half_overlap, PyFloat.div.
  change (PyFloat.is_zero (PyFloat.of_int 2)) with false.
  change (PyFloat.of_int 2) with (S754_finite false 4503599627370496 (-51)).
  cbn [mbind result_bind Py.bind].
  destruct (n_fft - hop_size) as [| p | p]; [reflexivity | |].
  - destruct (binary_round_int false p) as (mz & Hof & Hmz & Hdz);
      [apply digits_le_53; lia |].
    pose proof (digits_le_53 p ltac:(lia)) as Hd.
    pose proof (digits_pos p) as Hd0.
    unfold PyFloat.of_int, binary_normalize. rewrite Hof.
    rewrite div_two_exact by (try exact Hdz; lia).
    unfold PyFloat.to_int, PyFloat.signed, PyFloat.int_part. f_equal.
    destruct (Z.leb_spec 0 (Zdigits2 (Zpos p) - 53 - 1)); [lia |].
    rewrite Z.shiftr_div_pow2 by lia. rewrite Hmz.
    replace (- (Zdigits2 (Zpos p) - 53 - 1))
      with ((53 - Zdigits2 (Zpos p)) + 1) by lia.
    rewrite Z.pow_add_r by lia. change (2 ^ 1) with 2.
    rewrite <- Z.div_div by (try apply Z.pow_pos_nonneg; lia).
    rewrite Z.div_mul by (apply Z.pow_nonzero; lia).
    rewrite Z.quot_div_nonneg by lia. reflexivity.
  - destruct (binary_round_int true p) as (mz & Hof & Hmz & Hdz);
      [apply digits_le_53; lia |].
    pose proof (digits_le_53 p ltac:(lia)) as Hd.
    pose proof (digits_pos p) as Hd0.
    unfold PyFloat.of_int, binary_normalize. rewrite Hof.
    rewrite div_two_exact by (try exact Hdz; lia).
    unfold PyFloat.to_int, PyFloat.signed, PyFloat.int_part. f_equal.
    destruct (Z.leb_spec 0 (Zdigits2 (Zpos p) - 53 - 1)); [lia |].
    rewrite Z.shiftr_div_pow2 by lia. rewrite Hmz.
    replace (- (Zdigits2 (Zpos p) - 53 - 1))
      with ((53 - Zdigits2 (Zpos p)) + 1) by lia.
    rewrite Z.pow_add_r by lia. change (2 ^ 1) with 2.
    rewrite <- Z.div_div by (try apply Z.pow_pos_nonneg; lia).
    rewrite Z.div_mul by (apply Z.pow_nonzero; lia).
    change (Zneg p) with (- Zpos p). rewrite Z.quot_opp_l by lia.
    rewrite Z.quot_div_nonneg by lia. reflexivity.
Qed.

End EdgeFacts.

(** ** The sample count of the resampling step *)

Module ResampleFacts.
Import Py Random Dataset Concrete FloatFacts FloatExact DatasetFacts.
Import DatasetRuns.

(** *** Rounding to the nearest integer, on integers *)

(** Scaling both terms of a quotient does not change its rounding. *)
Lemma round_half_even_scale c a b :
  0 < c -> 0 < b -> round_half_even (c * a) (c * b) = round_half_even a b.
Proof.
  intros Hc Hb. unfold round_half_even.
  rewrite Z.div_mul_cancel_l by lia.
  rewrite Z.mul_mod_distr_l by lia.
  set (r := a mod b).
  replace (2 * (c * r)) with (c * (2 * r)) by ring.
  assert (E1 : (c * (2 * r) <? c * b) = (2 * r <? b)).
  { pose proof (Z.mul_lt_mono_pos_l c (2 * r) b Hc).
    destruct (Z.ltb_spec (c * (2 * r)) (c * b));
      destruct (Z.ltb_spec (2 * r) b); try reflexivity; lia. }
  assert (E2 : (c * b <? c * (2 * r)) = (b <? 2 * r)).
  { pose proof (Z.mul_lt_mono_pos_l c b (2 * r) Hc).
    destruct (Z.ltb_spec (c * b) (c * (2 * r)));
      destruct (Z.ltb_spec b (2 * r)); try reflexivity; lia. }
  now rewrite E1, E2.
Qed.

(** Where the quotient is within reach. *)
Lemma round_half_even_below m K N :
  0 < K -> N * K <= m -> 2 * m < (2 * N + 1) * K ->
  round_half_even m K = N.
Proof.
  intros HK Hlo Hhi. unfold round_half_even.
  assert (Hq : m / K = N).
  { symmetry. apply Z.div_unique with (r := m - N * K); lia. }
  pose proof (Z.div_mod m K) as Hdm.
  pose proof (Z.mod_pos_bound m K HK) as Hr.
  rewrite Hq in *.
  destruct (Z.ltb_spec (2 * (m mod K)) K); [reflexivity | nia].
Qed.

Lemma round_half_even_above m K N :
  0 < K -> (2 * N + 1) * K < 2 * m -> m <= (N + 1) * K ->
  round_half_even m K = N + 1.
Proof.
  intros HK Hlo Hhi. unfold round_half_even.
  pose proof (Z.div_mod m K) as Hdm.
  pose proof (Z.mod_pos_bound m K HK) as Hr.
  destruct (Z.eq_dec m ((N + 1) * K)) as [-> | Hne].
  - rewrite Z.div_mul, Z.mod_mul by lia.
    destruct (Z.ltb_spec (2 * 0) K); [reflexivity | lia].
  - assert (Hq : m / K = N).
    { symmetry. apply Z.div_unique with (r := m - N * K); lia. }
    rewrite Hq in *.
    destruct (Z.ltb_spec (2 * (m mod K)) K); [nia |].
    destruct (Z.ltb_spec K (2 * (m mod K))); [reflexivity | nia].
Qed.

(** A value within one unit of the quotient scaled by [K] rounds as the
    quotient does, when the quotient is not half an integer. *)
Lemma round_half_even_near a b K m :
  0 < b -> 0 <= a -> 2 * b < K ->
  a mod b <> 0 -> 2 * (a mod b) <> b ->
  a * K / b <= m <= a * K / b + 1 ->
  round_half_even m K = round_half_even a b.
Proof.
  intros Hb Ha HK Hr0 Hr2 Hm.
  pose proof (Z.div_mod a b ltac:(lia)) as Hdm.
  pose proof (Z.mod_pos_bound a b Hb) as Hr.
  pose proof (Z.div_mod (a * K) b ltac:(lia)) as Hdt.
  pose proof (Z.mod_pos_bound (a * K) b Hb) as Hrt.
  set (N := a / b) in *. set (rho := a mod b) in *.
  set (t := a * K / b) in *. set (rt := (a * K) mod b) in *.
  assert (Ht : b * t <= a * K < b * (t + 1)) by lia.
  assert (HaK : a * K = b * (N * K) + rho * K) by (rewrite Hdm; ring).
  assert (Hrk : 0 <= rho * K) by nia.
  assert (HNt : N * K <= t).
  { assert (b * (N * K) < b * (t + 1)) by lia.
    apply Z.mul_lt_mono_pos_l in H; lia. }
  unfold round_half_even at 2. fold N rho.
  destruct (Z.ltb_spec (2 * rho) b) as [Hlt | Hge].
  - apply round_half_even_below; [lia | lia |].
    assert (H1 : 2 * rho * K <= (b - 1) * K) by (apply Z.mul_le_mono_nonneg_r; lia).
    assert (H2 : b * (2 * (t + 1)) < b * ((2 * N + 1) * K)) by nia.
    apply Z.mul_lt_mono_pos_l in H2; lia.
  - destruct (Z.ltb_spec b (2 * rho)) as [Hgt |]; [| lia].
    assert (H1 : (b + 1) * K <= 2 * rho * K) by (apply Z.mul_le_mono_nonneg_r; lia).
    apply round_half_even_above; [lia | |].
    + assert (H2 : b * ((2 * N + 1) * K) < b * (2 * t)) by nia.
      apply Z.mul_lt_mono_pos_l in H2; lia.
    + assert (H3 : rho * K < b * K) by (apply Z.mul_lt_mono_pos_r; lia).
      assert (H2 : b * t < b * ((N + 1) * K)) by nia.
      apply Z.mul_lt_mono_pos_l in H2; lia.
Qed.

(** *** [round] on a double *)

(** Python's [round] on a positive double with a fractional part. *)
Lemma round_finite m e :
  e < 0 ->
  PyFloat.round (S754_finite false m e)
  = Ok (round_half_even (Zpos m) (2 ^ (- e))).
Proof.
  intros He. unfold PyFloat.round, PyFloat.int_part, PyFloat.frac_part,
    PyFloat.signed, round_half_even.
  destruct (Z.leb_spec 0 e); [lia |].
  rewrite Z.shiftr_div_pow2 by lia.
  assert (HK : 2 ^ (- e) = 2 * 2 ^ (- e - 1)).
  { rewrite <- Z.pow_succ_r by lia. f_equal. lia. }
  set (r := Zpos m mod 2 ^ (- e)). set (q := Zpos m / 2 ^ (- e)).
  set (half := 2 ^ (- e - 1)) in *. rewrite HK. cbn [negb andb].
  rewrite Bool.andb_true_r.
  destruct (Z.ltb_spec r half); destruct (Z.ltb_spec (2 * r) (2 * half));
    try lia; [reflexivity |].
  destruct (Z.ltb_spec half r); destruct (Z.ltb_spec (2 * half) (2 * r));
    try lia; [reflexivity |].
  destruct (Z.even q); reflexivity.
Qed.

(** *** The product of two integers as doubles *)

Lemma pow2_split a b : 0 <= a -> 0 <= b -> 2 ^ (a + b) = 2 ^ a * 2 ^ b.
Proof. intros. now apply Z.pow_add_r. Qed.

(** The size of a product of two positive numbers. *)
Lemma digits_mul_lower p q :
  Zdigits2 (Zpos p) + Zdigits2 (Zpos q) - 1 <= Zdigits2 (Zpos (p * q)).
Proof.
  pose proof (Zdigits2_bounds p) as Hp. pose proof (Zdigits2_bounds q) as Hq.
  pose proof (Zdigits2_bounds (p * q)) as Hz.
  pose proof (digits_pos p). pose proof (digits_pos q).
  set (dp := Zdigits2 (Zpos p)) in *. set (dq := Zdigits2 (Zpos q)) in *.
  set (dz := Zdigits2 (Zpos (p * q))) in *.
  destruct (Z.lt_ge_cases dz (dp + dq - 1)) as [Hlt |]; [| lia].
  exfalso.
  assert (H1 : 2 ^ dz <= 2 ^ (dp + dq - 2)) by (apply Z.pow_le_mono_r; lia).
  replace (dp + dq - 2) with ((dp - 1) + (dq - 1)) in H1 by lia.
  rewrite pow2_split in H1 by lia.
  rewrite Pos2Z.inj_mul in Hz.
  assert (2 ^ (dp - 1) * 2 ^ (dq - 1) <= Zpos p * Zpos q)
    by (apply Z.mul_le_mono_nonneg; lia).
  lia.
Qed.

(** A product below [2^53] is computed exactly. *)
Lemma mul_of_int x y :
  0 < x -> 0 < y -> x * y < 2 ^ 53 ->
  PyFloat.mul (PyFloat.of_int x) (PyFloat.of_int y) = PyFloat.of_int (x * y).
Proof.
  intros Hx Hy Hxy.
  destruct x as [| p |]; [lia | | lia]. destruct y as [| q |]; [lia | | lia].
  assert (Hp53 : Zpos p < 2 ^ 53) by nia.
  assert (Hq53 : Zpos q < 2 ^ 53) by nia.
  change (Zpos p * Zpos q) with (Zpos (p * q)) in *.
  destruct (binary_round_int false p) as (mx & Hofx & Hmx & Hdx);
    [apply digits_le_53; lia |].
  destruct (binary_round_int false q) as (my & Hofy & Hmy & Hdy);
    [apply digits_le_53; lia |].
  destruct (binary_round_int false (p * q)) as (mz & Hofz & Hmz & Hdz);
    [apply digits_le_53; lia |].
  pose proof (digits_le_53 p Hp53) as Hdp. pose proof (digits_pos p) as Hdp0.
  pose proof (digits_le_53 q Hq53) as Hdq. pose proof (digits_pos q) as Hdq0.
  pose proof (digits_le_53 (p * q) Hxy) as Hdpq.
  pose proof (digits_mul_lower p q) as Hlow.
  pose proof (Zdigits2_bounds (p * q)) as Hbz.
  unfold PyFloat.of_int, binary_normalize. rewrite Hofx, Hofy, Hofz.
  set (dp := Zdigits2 (Zpos p)) in *. set (dq := Zdigits2 (Zpos q)) in *.
  set (dz := Zdigits2 (Zpos (p * q))) in *.
  unfold PyFloat.mul, SFmul. cbn [xorb].
  set (D := dz + 106 - dp - dq).
  assert (HM : Zpos (mx * my)
               = Zpos (p * q) * 2 ^ (53 - dz) * 2 ^ (D - 53)).
  { rewrite Pos2Z.inj_mul, Hmx, Hmy, (Pos2Z.inj_mul p q).
    replace (D - 53) with ((53 - dp) + (53 - dq) - (53 - dz)) by lia.
    assert (E : 2 ^ (53 - dz) * 2 ^ ((53 - dp) + (53 - dq) - (53 - dz))
                = 2 ^ (53 - dp) * 2 ^ (53 - dq)).
    { rewrite <- !pow2_split by lia. f_equal. lia. }
    rewrite <- (Z.mul_assoc _ (2 ^ (53 - dz))), E. ring. }
  assert (HD0 : 0 < 2 ^ (D - 53)) by (apply Z.pow_pos_nonneg; lia).
  assert (Hz0 : 0 < 2 ^ (53 - dz)) by (apply Z.pow_pos_nonneg; lia).
  destruct (binary_round_aux_exact false (mx * my)
              (dp - 53 + (dq - 53)) D) as (m & Hr & Hm & _).
  - apply Zdigits2_unique. rewrite HM, <- Hmz.
    pose proof (Zdigits2_bounds mz) as Hb. rewrite Hdz in Hb.
    assert (E1 : 2 ^ (D - 1) = 2 ^ 52 * 2 ^ (D - 53))
      by (rewrite <- pow2_split by lia; f_equal; lia).
    assert (E2 : 2 ^ D = 2 ^ 53 * 2 ^ (D - 53))
      by (rewrite <- pow2_split by lia; f_equal; lia).
    rewrite E1, E2. change (53 - 1) with 52 in Hb.
    split; [apply Z.mul_le_mono_nonneg_r; lia
           | apply Z.mul_lt_mono_pos_r; lia].
  - unfold D. lia.
  - rewrite HM. exists (Zpos (p * q) * 2 ^ (53 - dz)). reflexivity.
  - unfold D. lia.
  - rewrite Hr. rewrite HM, Z.div_mul in Hm by lia. rewrite <- Hmz in Hm.
    inversion Hm; subst. f_equal. unfold D. lia.
Qed.

(** *** The quotient of two integers as doubles *)

(** Rounding a mantissa of at least 53 bits, whatever was lost before:
    the result is the truncated mantissa or the next one, renormalised
    if the carry went through. *)
Lemma binary_round_aux_near s M e l :
  let D := Zdigits2 (Zpos M) in
  53 <= D -> -1074 <= D + e - 53 -> D + e <= 1023 ->
  exists m2 m3 e3,
    binary_round_aux PyFloat.prec PyFloat.emax s (Zpos M) e l
    = S754_finite s m3 e3
    /\ Zpos M / 2 ^ (D - 53) <= m2 <= Zpos M / 2 ^ (D - 53) + 1
    /\ e + (D - 53) <= e3 <= e + (D - 53) + 1
    /\ m2 = Zpos m3 * 2 ^ (e3 - (e + (D - 53))).
Proof.
  intros D HD Hlo Hhi.
  pose proof (Zdigits2_bounds M) as HM. fold D in HM.
  pose proof (mantissa_after_shift (Zpos M) D HD HM) as Hm1.
  unfold binary_round_aux, shr_fexp. fold D.
  rewrite fexp_normal by lia.
  replace (D + e - 53 - e) with (D - 53) by lia.
  destruct (shr_spec (shr_record_of_loc (Zpos M) l) e (D - 53))
    as [Hm He]; [rewrite shr_m_of_loc; lia | lia |].
  destruct (shr (shr_record_of_loc (Zpos M) l) e (D - 53))
    as [mrs' e'] eqn:Hshr.
  cbn [fst snd] in Hm, He. rewrite shr_m_of_loc in Hm. subst e'.
  set (m2 := round_nearest_even (shr_m mrs') (loc_of_shr_record mrs')).
  pose proof (round_nearest_even_range (shr_m mrs') (loc_of_shr_record mrs'))
    as Hr. fold m2 in Hr. rewrite Hm in Hr.
  assert (Hm2 : 2 ^ 52 <= m2 <= 2 ^ 53) by lia.
  destruct m2 as [| q | q] eqn:Hq; [lia | | lia].
  set (D2 := Zdigits2 (Zpos q)).
  pose proof (Zdigits2_bounds q) as Hq2. fold D2 in Hq2.
  assert (HD2 : 53 <= D2 <= 54).
  { split.
    - destruct (Z.lt_ge_cases D2 53) as [Hlt |]; [| lia].
      assert (2 ^ D2 <= 2 ^ 52) by (apply Z.pow_le_mono_r; lia). lia.
    - destruct (Z.lt_ge_cases 54 D2) as [Hlt |]; [| lia].
      assert (2 ^ 54 <= 2 ^ (D2 - 1)) by (apply Z.pow_le_mono_r; lia). lia. }
  rewrite fexp_normal by lia.
  replace (D2 + (e + (D - 53)) - 53 - (e + (D - 53))) with (D2 - 53) by lia.
  destruct (shr_spec (shr_record_of_loc (Zpos q) loc_Exact) (e + (D - 53)) (D2 - 53))
    as [Hm' He']; [simpl; lia | lia |].
  destruct (shr (shr_record_of_loc (Zpos q) loc_Exact) (e + (D - 53)) (D2 - 53))
    as [mrs'' e''] eqn:Hshr'.
  cbn [fst snd] in Hm', He'. rewrite shr_m_of_loc in Hm'. subst e''.
  pose proof (mantissa_after_shift (Zpos q) D2 (proj1 HD2) Hq2) as Hm3.
  rewrite <- Hm' in Hm3.
  destruct (shr_m mrs'') as [| m3 | m3] eqn:Hm3'; [lia | | lia].
  unfold PyFloat.emax, PyFloat.prec.
  destruct (Z.leb_spec (e + (D - 53) + (D2 - 53)) (1024 - 53)); [| lia].
  exists (Zpos q), m3, (e + (D - 53) + (D2 - 53)).
  split; [reflexivity |]. split; [lia |]. split; [lia |].
  replace (e + (D - 53) + (D2 - 53) - (e + (D - 53))) with (D2 - 53) by lia.
  destruct (Z.eq_dec D2 53) as [E | E].
  - rewrite E in Hm' |- *. change (2 ^ (53 - 53)) with 1 in Hm' |- *.
    rewrite Z.div_1_r in Hm'. lia.
  - assert (E' : D2 = 54) by lia. rewrite E' in Hm', Hq2 |- *.
    change (2 ^ (54 - 53)) with 2 in Hm' |- *.
    change (54 - 1) with 53 in Hq2.
    assert (Hq53 : Zpos q = 2 ^ 53) by lia.
    rewrite Hq53 in Hm' |- *. change (2 ^ 53 / 2) with (2 ^ 52) in Hm'.
    rewrite Hm'. reflexivity.
Qed.

Lemma digits_le p k : 0 <= k -> Zpos p < 2 ^ k -> Zdigits2 (Zpos p) <= k.
Proof.
  intros Hk Hp. pose proof (Zdigits2_bounds p) as Hb.
  destruct (Z.lt_ge_cases k (Zdigits2 (Zpos p))) as [Hlt |]; [| lia].
  assert (2 ^ k <= 2 ^ (Zdigits2 (Zpos p) - 1))
    by (apply Z.pow_le_mono_r; lia).
  lia.
Qed.

Lemma new_location_exact m : new_location m 0 = loc_Exact.
Proof.
  unfold new_location, new_location_even, new_location_odd.
  destruct (Z.even m); reflexivity.
Qed.

(** The quotient of two 53-bit mantissas, scaled by 2^53. *)
Lemma quotient_bounds ma mb q r :
  2 ^ 52 <= ma < 2 ^ 53 -> 2 ^ 52 <= mb < 2 ^ 53 ->
  ma * 2 ^ 53 = mb * q + r -> 0 <= r < mb ->
  2 ^ 52 <= q < 2 ^ 54.
Proof.
  intros Ha Hb Hdm Hr.
  assert (H53 : 0 < 2 ^ 53) by reflexivity.
  assert (H52 : 0 < 2 ^ 52) by reflexivity.
  split.
  - destruct (Z.lt_ge_cases q (2 ^ 52)) as [Hlt |]; [| lia].
    exfalso.
    assert (0 <= q).
    { destruct (Z.lt_ge_cases q 0) as [Hneg |]; [| lia].
      assert (mb * q <= mb * (-1)) by (apply Z.mul_le_mono_nonneg_l; lia).
      assert (0 <= ma * 2 ^ 53) by (apply Z.mul_nonneg_nonneg; lia).
      lia. }
    assert (H1 : mb * (q + 1) <= 2 ^ 53 * 2 ^ 52)
      by (apply Z.mul_le_mono_nonneg; lia).
    assert (H2 : 2 ^ 52 * 2 ^ 53 <= ma * 2 ^ 53)
      by (apply Z.mul_le_mono_nonneg_r; lia).
    lia.
  - destruct (Z.lt_ge_cases q (2 ^ 54)) as [| Hge]; [lia |].
    exfalso.
    assert (H1 : 2 ^ 52 * 2 ^ 54 <= mb * q)
      by (apply Z.mul_le_mono_nonneg; lia).
    assert (H2 : ma * 2 ^ 53 < 2 ^ 53 * 2 ^ 53)
      by (apply Z.mul_lt_mono_pos_r; lia).
    change (2 ^ 52 * 2 ^ 54) with (2 ^ 53 * 2 ^ 53) in H1. lia.
Qed.

(** The double nearest to [a / b] rounds to the same integer as
    [a / b] itself. *)
Lemma div_of_int_round a b :
  0 < a < 2 ^ 51 -> 0 < b < 2 ^ 53 ->
  exists m e,
    SFdiv PyFloat.prec PyFloat.emax (PyFloat.of_int a) (PyFloat.of_int b)
    = S754_finite false m e
    /\ e < 0
    /\ round_half_even (Zpos m) (2 ^ (- e)) = round_half_even a b.
Proof.
  intros Ha Hb.
  destruct a as [| p |]; [lia | | lia]. destruct b as [| q |]; [lia | | lia].
  assert (Hp53 : Zpos p < 2 ^ 53)
    by (assert (2 ^ 51 < 2 ^ 53) by reflexivity; lia).
  destruct (binary_round_int false p) as (ma & Hofa & Hma & Hda);
    [apply digits_le_53; lia |].
  destruct (binary_round_int false q) as (mb & Hofb & Hmb & Hdb);
    [apply digits_le_53; lia |].
  pose proof (digits_le p 51 ltac:(lia) (proj2 Ha)) as Hdp.
  pose proof (digits_pos p) as Hdp0.
  pose proof (digits_le_53 q (proj2 Hb)) as Hdq.
  pose proof (digits_pos q) as Hdq0.
  pose proof (Zdigits2_bounds q) as Hbq.
  pose proof (Zdigits2_bounds ma) as Hba. rewrite Hda in Hba.
  pose proof (Zdigits2_bounds mb) as Hbb. rewrite Hdb in Hbb.
  change (53 - 1) with 52 in Hba, Hbb.
  unfold PyFloat.of_int, binary_normalize. rewrite Hofa, Hofb.
  set (da := Zdigits2 (Zpos p)) in *. set (db := Zdigits2 (Zpos q)) in *.
  unfold SFdiv, SFdiv_core_binary. cbn [xorb]. rewrite Hda, Hdb.
  rewrite fexp_normal by lia.
  replace (Z.min (53 + (da - 53) - (53 + (db - 53)) - 53)
                 (da - 53 - (db - 53))) with (da - db - 53) by lia.
  replace (da - 53 - (db - 53) - (da - db - 53)) with 53 by lia.
  rewrite Z.shiftl_mul_pow2 by lia.
  set (X := Zpos ma * 2 ^ 53). set (Y := Zpos mb).
  pose proof (Z_div_mod X Y eq_refl) as Hdm.
  destruct (Z.div_eucl X Y) as [qq r] eqn:Heucl.
  assert (Hqq : qq = X / Y) by (unfold Z.div; now rewrite Heucl).
  assert (Hrr : r = X mod Y) by (unfold Z.modulo; now rewrite Heucl).
  destruct Hdm as [Hdm Hr].
  pose proof (quotient_bounds (Zpos ma) (Zpos mb) qq r Hba Hbb Hdm Hr) as Hbqq.
  assert (H52 : 0 < 2 ^ 52) by reflexivity.
  destruct qq as [| Q |]; [lia | | lia].
  set (D := Zdigits2 (Zpos Q)).
  pose proof (Zdigits2_bounds Q) as HbQ. fold D in HbQ.
  assert (HD : 53 <= D <= 54).
  { split.
    - destruct (Z.lt_ge_cases D 53) as [Hlt |]; [| lia].
      assert (2 ^ D <= 2 ^ 52) by (apply Z.pow_le_mono_r; lia). lia.
    - destruct (Z.lt_ge_cases 54 D) as [Hlt |]; [| lia].
      assert (2 ^ 54 <= 2 ^ (D - 1)) by (apply Z.pow_le_mono_r; lia). lia. }
  (* the quotient of the mantissas is the quotient of the integers,
     scaled *)
  set (c := 2 ^ (53 - db)). set (K0 := 2 ^ (53 + db - da)).
  assert (Hc : 0 < c) by (apply Z.pow_pos_nonneg; lia).
  assert (HK0 : 0 < K0) by (apply Z.pow_pos_nonneg; lia).
  assert (HX : X = Zpos p * K0 * c).
  { unfold X, K0, c. rewrite Hma, <- !Z.mul_assoc. f_equal.
    rewrite <- !pow2_split by lia. f_equal. lia. }
  assert (HY : Y = Zpos q * c) by exact Hmb.
  assert (HQ : Zpos Q = Zpos p * K0 / Zpos q).
  { rewrite Hqq, HX, HY. apply Z.div_mul_cancel_r; lia. }
  assert (HR : r = (Zpos p * K0) mod Zpos q * c).
  { rewrite Hrr, HX, HY. apply Z.mul_mod_distr_r; lia. }
  set (n := D - 53).
  set (H' := 2 ^ (52 + db - da - n)).
  assert (HH' : 0 < H') by (apply Z.pow_pos_nonneg; unfold n; lia).
  assert (Hn : 0 < 2 ^ n) by (apply Z.pow_pos_nonneg; unfold n; lia).
  assert (HK0n : K0 = 2 * H' * 2 ^ n).
  { unfold K0, H'.
    replace (53 + db - da) with (Z.succ (52 + db - da - n) + n) by lia.
    rewrite pow2_split, Z.pow_succ_r by (unfold n; lia). reflexivity. }
  assert (HKE : 2 ^ (- (da - db - 53 + n)) = 2 * H').
  { unfold H'.
    replace (- (da - db - 53 + n)) with (Z.succ (52 + db - da - n)) by lia.
    apply Z.pow_succ_r. unfold n; lia. }
  pose proof (Z.div_mod (Zpos p) (Zpos q) ltac:(lia)) as Hpq.
  pose proof (Z.mod_pos_bound (Zpos p) (Zpos q) ltac:(lia)) as Hrho.
  set (N := Zpos p / Zpos q) in *. set (rho := Zpos p mod Zpos q) in *.
  assert (Hexact : forall j, 2 * Zpos p = Zpos q * j ->
            exists m e,
              binary_round_aux PyFloat.prec PyFloat.emax false (Zpos Q)
                               (da - db - 53) (new_location Y r)
              = S754_finite false m e
              /\ e < 0
              /\ round_half_even (Zpos m) (2 ^ (- e))
                 = round_half_even (Zpos p) (Zpos q)).
  { intros j Hj.
    assert (HpK : Zpos p * K0 = j * H' * 2 ^ n * Zpos q).
    { rewrite HK0n.
      transitivity (2 * Zpos p * H' * 2 ^ n); [ring | rewrite Hj; ring]. }
    assert (Hr0 : r = 0) by (rewrite HR, HpK, Z.mod_mul by lia; reflexivity).
    assert (HQj : Zpos Q = j * H' * 2 ^ n)
      by (rewrite HQ, HpK, Z.div_mul by lia; reflexivity).
    rewrite Hr0, new_location_exact.
    destruct (binary_round_aux_exact false Q (da - db - 53) D)
      as (m & Hres & Hm & _); [reflexivity | lia | | lia |].
    { exists (j * H'). exact HQj. }
    fold n in Hres, Hm. rewrite HQj, Z.div_mul in Hm by lia.
    exists m, (da - db - 53 + n). split; [exact Hres |].
    split; [unfold n; lia |].
    rewrite HKE, Hm, (Z.mul_comm j H'), (Z.mul_comm 2 H').
    rewrite round_half_even_scale by lia.
    rewrite <- (round_half_even_scale 2 (Zpos p) (Zpos q)) by lia.
    rewrite Hj, (Z.mul_comm 2 (Zpos q)).
    rewrite round_half_even_scale by lia. reflexivity. }
  destruct (Z.eq_dec rho 0) as [Hz | Hnz];
    [| destruct (Z.eq_dec (2 * rho) (Zpos q)) as [Hhalf | Hnh]].
  3: {
    (* the quotient is not half an integer *)
    destruct (binary_round_aux_near false Q (da - db - 53)
                (new_location Y r))
      as (m2 & m3 & e3 & Hres & Hm2 & He3 & Hm23); fold D; try lia.
    fold D in Hm2, He3, Hm23. fold n in Hm2, He3, Hm23.
    exists m3, e3. split; [exact Hres |]. split; [lia |].
    set (s := e3 - (da - db - 53 + n)) in *.
    assert (Hs : 0 < 2 ^ s) by (apply Z.pow_pos_nonneg; unfold s; lia).
    assert (HKs : 2 ^ s * 2 ^ (- e3) = 2 * H').
    { rewrite <- HKE, <- pow2_split by (unfold s; lia). f_equal.
      unfold s. lia. }
    rewrite <- (round_half_even_scale (2 ^ s)) by
      (try assumption; apply Z.pow_pos_nonneg; lia).
    rewrite HKs, (Z.mul_comm (2 ^ s)), <- Hm23.
    apply round_half_even_near; try lia.
    - unfold H'. assert (2 ^ db <= 2 ^ (52 + db - da - n))
        by (apply Z.pow_le_mono_r; unfold n; lia).
      lia.
    - assert (Ht : Zpos Q / 2 ^ n = Zpos p * (2 * H') / Zpos q).
      { rewrite HQ, HK0n, Z.div_div by lia.
        rewrite Z.mul_assoc. apply Z.div_mul_cancel_r; lia. }
      rewrite <- Ht. exact Hm2. }
  - (* the quotient is an integer *)
    apply (Hexact (2 * N)). lia.
  - (* the quotient is half an odd integer *)
    apply (Hexact (2 * N + 1)). lia.
Qed.

Lemma of_int_not_zero b :
  0 < b < 2 ^ 53 -> PyFloat.is_zero (PyFloat.of_int b) = false.
Proof.
  intros Hb. destruct b as [| q |]; [lia | | lia].
  destruct (binary_round_int false q) as (mb & Hofb & _);
    [apply digits_le_53; lia |].
  unfold PyFloat.of_int, binary_normalize. now rewrite Hofb.
Qed.

(** [round(L * float(T) / S)] as the code computes it in binary64 is
    the exact quotient [L * T / S] rounded to the nearest integer, ties
    to even: the product is exact, the division is rounded once to 53
    bits, and at this size that rounding never crosses a half-integer
    nor moves a value that sits on one. *)
Lemma number_of_samples_rounds L T S :
  0 < L -> 0 < T -> 0 < S < 2 ^ 53 -> L * T < 2 ^ 51 ->
  number_of_samples L T S = Ok (round_half_even (L * T) S).
Proof.
  intros HL HT HS HLT. unfold number_of_samples.
  rewrite mul_of_int; [| lia | lia
                       | assert (2 ^ 51 < 2 ^ 53) by reflexivity; lia].
  unfold PyFloat.div. rewrite of_int_not_zero by exact HS.
  destruct (div_of_int_round (L * T) S) as (m & e & Hdiv & He & Hround);
    [nia | exact HS |].
  rewrite Hdiv. cbn. rewrite <- Hround. now apply round_finite.
Qed.

Section WithSignal.
Variable sample : Type.
Variable of_pcm : Z -> sample.
Variable resample : list sample -> Z -> list sample.

Abbreviation MelDataset := (MelDataset sample).
Abbreviation fetch_audio := (fetch_audio of_pcm resample).
Abbreviation inference_load := (inference_load of_pcm resample).

(** C9.  When the rate of the file differs from the target, the
    waveform that leaves the resampling step has exactly
    [round(L * target / source)] samples, [L] being the loaded length
    and the quotient being the exact one, rounded to the nearest
    integer with a tie going to the even neighbour: in the dataset on
    a miss and in the inference loop.  The count the code computes in
    binary64 is that integer while [L * target < 2^51] and the source
    rate is below [2^53].  [scipy.signal.resample(x, num)] is taken to
    return [num] samples for a positive [num], and the count is
    assumed positive. *)
Theorem resampled_length (self : MelDataset) d c filename data rate :
  (forall x num, 0 < num -> len (resample x num) = num) ->
  cache_ref_count c = 0 ->
  load_wav d filename = Ok (data, rate) ->
  rate <> sampling_rate self ->
  0 < sampling_rate self ->
  0 < rate < 2 ^ 53 ->
  Z.of_nat (length data) * sampling_rate self < 2 ^ 51 ->
  0 < round_half_even (Z.of_nat (length data) * sampling_rate self) rate ->
  (exists audio c1,
      fetch_audio self d c filename = Ok (audio, c1)
      /\ len audio
         = round_half_even (Z.of_nat (length data) * sampling_rate self) rate)
  /\ (exists wav,
         inference_load d (sampling_rate self) filename = Ok wav
         /\ len wav
            = round_half_even (Z.of_nat (length data) * sampling_rate self)
                              rate).
Proof.
  intros Hres Hc Hload Hrate Hsr Hrt Hsize Hn.
  assert (HL : 0 < Z.of_nat (length data)).
  { destruct data; [| cbn [length]; lia].
    cbn [length] in Hn. change (Z.of_nat 0 * sampling_rate self) with 0 in Hn.
    unfold round_half_even in Hn. rewrite Z.div_0_l, Z.mod_0_l in Hn by lia.
    destruct (Z.ltb_spec (2 * 0) rate); [| lia]. lia. }
  pose proof (number_of_samples_rounds _ _ _ HL Hsr Hrt Hsize) as Hcount.
  split.
  - eexists _, _. split.
    + eapply fetch_audio_miss;
        [exact Hc | exact Hload | exact Hrate | exact Hcount].
    + now apply Hres.
  - unfold Dataset.inference_load. rewrite Hload. step_bind.
    destruct (Z.eqb_spec rate (sampling_rate self)) as [| _]; [contradiction |].
    cbn [negb]. unfold len at 1. rewrite length_map, Hcount. step_bind.
    eexists. split; [reflexivity | now apply Hres].
Qed.

End WithSignal.

(** One thousand samples at 48000 Hz brought to 22050 Hz:
    [1000 * 22050 / 48000 = 459.375], so 459 samples. *)
Lemma resampled_length_run :
  (exists audio c1,
      fetch_audio q_of_pcm resample_hold plain_22k disk_48k empty_cache "a.wav"
      = Ok (audio, c1) /\ len audio = 459)
  /\ (exists wav,
         inference_load q_of_pcm resample_hold disk_48k 22050 "a.wav" = Ok wav
         /\ len wav = 459).
Proof.
  apply (resampled_length Q q_of_pcm resample_hold plain_22k disk_48k
           empty_cache "a.wav" (repeat 1 1000%nat) 48000);
    [intros x num Hnum; apply resample_hold_length; lia
    | reflexivity | reflexivity
    | vm_compute; discriminate | reflexivity | split; reflexivity
    | reflexivity | reflexivity].
Defined.

End ResampleFacts.

(** ** The further properties on concrete inputs *)

Module MoreRuns.
Import Random Corpus Split Dataset Spectral Loader Inference.
Import Concrete Inputs.
Import CorpusFacts ExtractorFacts WalkFacts LoaderFacts.
Import PathFacts InferenceFacts KeyFacts EdgeFacts.

Local Open Scope R_scope.

Lemma mel_spectrogram_ignores_caches_run :
  exists spec st1,
    mel_spectrogram stft_1 hann_1 mel_fn_1 no_caches [0] "cpu"
                    1 1 22050 1 1 0 (Some 8000%Z) false = Ok (spec, st1)
    /\ mel_spectrogram stft_1 hann_1 mel_fn_1 st1 [0] "cpu"
                       1 1 22050 1 1 0 (Some 8000%Z) false
       = Ok (spec, refresh_caches hann_1 mel_fn_1 st1 "cpu" 1 1 22050 1 0
                                  (Some 8000%Z)).
Proof.
  eexists _, _. split; [reflexivity |].
  eapply (mel_spectrogram_ignores_caches stft_1 hann_1 mel_fn_1 no_caches).
  reflexivity.
Defined.

Lemma mel_spectrogram_short_input_run :
  mel_spectrogram stft_1 hann_1 mel_fn_1 no_caches [] "cpu"
                  1 1 22050 1 1 0 (Some 8000%Z) false = Raise RuntimeError.
Proof.
  apply (mel_spectrogram_short_input stft_1 hann_1 mel_fn_1 no_caches []
           "cpu" 1 1 22050 1 1 0 (Some 8000%Z) false 0);
    [reflexivity | cbn; lia].
Defined.

Lemma mel_spectrogram_cells_run :
  exists spec,
    Forall (fun frame =>
              length frame = 1%nat /\ Forall (fun x => ln clip_val <= x) frame)
           spec
    /\ length spec = 1%nat.
Proof.
  eexists. split.
  - eapply (mel_spectrogram_cells stft_1 hann_1 mel_fn_1 no_caches [0] "cpu"
              1 1 22050 1 1 0 (Some 8000%Z) false).
    apply mel_spectrogram_value with (p := 0%Z); [reflexivity | cbn; lia].
  - reflexivity.
Defined.

Lemma distinct_fmax_entries_run :
  let st2 := refresh_caches hann_1 mel_fn_1
               (refresh_caches hann_1 mel_fn_1 no_caches "cpu" 1024 80 22050
                               1024 0 (Some 8000%Z))
               "cpu" 1024 80 22050 1024 0 None in
  mel_basis st2 !! "8000_cpu"%string = Some [[1]]
  /\ mel_basis st2 !! "None_cpu"%string = Some [[1]].
Proof.
  apply (distinct_fmax_entries hann_1 mel_fn_1 no_caches "cpu"
           1024 80 22050 1024 0 (Some 8000%Z) 1024 80 22050 1024 0 None).
  discriminate.
Defined.

Lemma transform_cells_nonneg_run :
  Forall (Forall (fun x => 0 <= x))
         (frames (MelSpectrogram stft_1 hann_1 fbank_1
                                 (transform_params args_1 0) [of_pcm 0])).
Proof.
  apply transform_cells_nonneg.
  repeat constructor. lra.
Defined.

Local Close Scope R_scope.

Lemma nested_mapping_never_indexed_run :
  is_ok (recursive_file_extract example_fs "/data/" (Mapping nested_keys))
  = false.
Proof.
  apply (nested_mapping_never_indexed example_fs "/data/" nested_keys
           "a" leaf_keys).
  now left.
Defined.

Lemma flat_keys_are_flat :
  Forall (fun kv => exists names, snd kv = Children names) leaf_keys.
Proof. repeat constructor. now exists ["x"; "y"]%string. Qed.


Lemma returned_paths_are_files_run :
  isfile example_fs "/data/a/b/x/f2" = true
  /\ exists key names child f,
      In (key, Children names) leaf_keys
      /\ In child names
      /\ isdir example_fs ("/data/a/" ++ key ++ "/" ++ child ++ "/")%string = true
      /\ In f (listdir example_fs ("/data/a/" ++ key ++ "/" ++ child ++ "/")%string)
      /\ "/data/a/b/x/f2"%string
         = os_path_join ("/data/a/" ++ key ++ "/" ++ child ++ "/")%string f.
Proof.
  apply (returned_paths_are_files example_fs "/data/a/" leaf_keys
           ["/data/a/b/x/f1"; "/data/a/b/x/f2"]%string "/data/a/b/x/f2"
           flat_keys_are_flat);
    [reflexivity | right; now left].
Defined.

Lemma extract_all_concat_run :
  extract_all example_fs ["/data/a/"; "/data/a/"]%string example_leaf_cfg None
  = Ok (Some ["/data/a/b/x/f1"; "/data/a/b/x/f2";
              "/data/a/b/x/f1"; "/data/a/b/x/f2"]%string).
Proof.
  apply (extract_all_concat example_fs ["/data/a/"; "/data/a/"]%string
           example_leaf_cfg
           (fun _ => ["/data/a/b/x/f1"; "/data/a/b/x/f2"]%string));
    [discriminate |].
  intros base [<- | [<- | []]]; reflexivity.
Defined.

Lemma no_base_path_raises_run :
  get_dataset_filelist example_fs h_no_base (rng_const 0) = Raise TypeError.
Proof. apply no_base_path_raises. reflexivity. Defined.

Lemma any_fraction_partitions_run :
  exists train val shuffled,
    train ++ val = shuffled
    /\ exists filelist,
        extract_all example_fs (base_pth h_flat) (cls_pth h_flat) None
        = Ok (Some filelist)
        /\ Permutation filelist shuffled.
Proof.
  eexists _, _, _.
  eapply (any_fraction_partitions example_fs h_flat (rng_const 0)).
  vm_compute. reflexivity.
Defined.

Lemma no_validation_fraction_run :
  exists shuffled g',
    get_dataset_filelist example_fs h_all_training (rng_const 0)
    = Ok (shuffled, [], shuffled, g')
    /\ Permutation ["/data/a/b/x/f1"; "/data/a/b/x/f2"]%string shuffled.
Proof.
  apply (no_validation_fraction example_fs h_all_training (rng_const 0));
    [reflexivity | reflexivity | vm_compute; reflexivity].
Defined.

Lemma whole_validation_fraction_run :
  exists shuffled g',
    get_dataset_filelist example_fs h_all_validation (rng_const 0)
    = Ok ([], shuffled, shuffled, g')
    /\ Permutation ["/data/a/b/x/f1"; "/data/a/b/x/f2"]%string shuffled.
Proof.
  apply (whole_validation_fraction example_fs h_all_validation (rng_const 0));
    [reflexivity | reflexivity | vm_compute; reflexivity].
Defined.

(** The usual configuration: [n_fft = 1024], [hop_size = 256]. *)
Lemma half_overlap_exact_run : half_overlap 1024 256 = Ok 384.
Proof.
  apply (half_overlap_exact 1024 256). vm_compute. split; reflexivity.
Defined.

Lemma cache_never_hits_empty_run :
  exists c : cache Q,
    cached_wav c = Some (map q_of_pcm [8192; 16384; -8192; 0])
    /\ (cache_ref_count c = 0 \/ is_Some (cached_wav c)).
Proof.
  eexists {| cached_wav := Some (map q_of_pcm [8192; 16384; -8192; 0]);
             cache_ref_count := 0 |}.
  split; [reflexivity |].
  eapply (cache_never_hits_empty Q 0%Q q_of_pcm resample_hold plain_22k
            disk_44k heap_a [0; 0] (rng_const 0)).
  vm_compute. reflexivity.
Defined.

(** Two calls on a cache holding four samples with the counter at 2. *)
Lemma cached_calls_run :
  exists its c' g',
    getitem_each 0%Q q_of_pcm resample_hold plain_22k disk_22k heap_a
                 {| cached_wav := Some four_samples; cache_ref_count := 2 |}
                 [0; -1] (rng_const 0)
    = Ok (its, c', g')
    /\ c' = {| cached_wav := Some four_samples; cache_ref_count := 0 |}
    /\ map it_audio its = [four_samples; four_samples]
    /\ map it_filename its = ["a.wav"; "a.wav"]%string.
Proof.
  eexists _, _, _. split; [vm_compute; reflexivity |].
  assert (Hidx : Forall2 (fun i name =>
                            Py.getitem ["a.wav"%string] i = Ok name)
                         [0; -1] ["a.wav"; "a.wav"]%string)
    by (repeat constructor).
  destruct (cached_calls Q 0%Q q_of_pcm resample_hold plain_22k disk_22k
              heap_a ["a.wav"%string] four_samples [0; -1]
              ["a.wav"; "a.wav"]%string (rng_const 0) _ _ _
              eq_refl eq_refl eq_refl Hidx eq_refl)
    as (Hc & _ & Ha & Hn & _).
  split; [exact Hc | split; [exact Ha | exact Hn]].
Defined.


Lemma fine_tuning_short_audio_run :
  exists mel' audio',
    segment_pair 0%Q (small_ft Q blank_spec) (mel_of_frames 3) [1%Q; 2%Q]
                 (rng_const 0) = Ok (mel', audio', rng_const 0)
    /\ frames mel' = firstn 2 (frames (mel_of_frames 3))
    /\ size2 mel' = 2
    /\ bins mel' = 1%nat
    /\ audio' = [1%Q; 2%Q; 0%Q; 0%Q]
    /\ len audio' = 4.
Proof.
  apply (fine_tuning_short_audio Q 0%Q (small_ft Q blank_spec)
           (mel_of_frames 3) [1%Q; 2%Q] (rng_const 0) 2);
    try reflexivity; vm_compute; discriminate.
Defined.

Lemma index_out_of_range_run :
  getitem 0%Q q_of_pcm resample_hold plain_22k disk_44k heap_a empty_cache
          1 (rng_const 0) = Raise IndexError.
Proof.
  apply (index_out_of_range Q 0%Q q_of_pcm resample_hold plain_22k disk_44k
           heap_a empty_cache 1 (rng_const 0) ["a.wav"%string]);
    [reflexivity | right; vm_compute; discriminate].
Defined.

Lemma negative_index_from_end_run :
  getitem 0%Q q_of_pcm resample_hold plain_22k disk_44k heap_a empty_cache
          (-1) (rng_const 0)
  = getitem 0%Q q_of_pcm resample_hold plain_22k disk_44k heap_a empty_cache
            (-1 + 1) (rng_const 0).
Proof.
  apply (negative_index_from_end Q 0%Q q_of_pcm resample_hold plain_22k
           disk_44k heap_a empty_cache (-1) (rng_const 0) ["a.wav"%string]);
    [reflexivity | vm_compute; split; [discriminate | reflexivity]].
Defined.

Lemma len_after_init_run :
  exists (self : MelDataset Q) h',
    audio_files self = 0%nat /\ dataset_len self h' = Ok 3.
Proof.
  eexists {| audio_files := 0%nat; segment_size := _; sampling_rate := _;
             split := _; n_fft := _; num_mels := _; hop_size := _;
             win_size := _; fmin := _; fmax := _; fmax_loss := _;
             n_cache_reuse := _; fine_tuning := _; base_mels_path := _;
             mel_spec := _ |}, _.
  split; [reflexivity |].
  eapply (len_after_init Q mel_blank seed_count args_shuffle heap_abc
            (rng_const 0) _ _ _ _ ["a.wav"; "b.wav"; "c.wav"]%string);
    [vm_compute; reflexivity | reflexivity].
Defined.

Lemma mel_path_of_file_run :
  mel_path (small_ft Q blank_spec) "/data/a/b/x/f1.wav" = "mels/f1.npy"%string.
Proof.
  apply (mel_path_of_file Q (small_ft Q blank_spec) "/data/a/b/x" "f1" "wav");
    reflexivity.
Defined.

Lemma output_file_of_stem_run :
  output_file "generated_files" "f1.wav" = "generated_files/f1_generated.wav"%string.
Proof.
  apply (output_file_of_stem "generated_files" "f1" "wav"); reflexivity.
Defined.


Lemma scan_checkpoint_newest_run :
  scan_checkpoint glob_two "cp" "g_" = "cp/g_00000010"%string
  /\ String.leb "cp/g_00000009" (scan_checkpoint glob_two "cp" "g_") = true.
Proof.
  split; [reflexivity |].
  apply (proj2 (scan_checkpoint_newest glob_two "cp" "g_"));
    [discriminate | right; now left].
Defined.

End MoreRuns.
